(** * Voice buffering utilities of [backend/voice/audio_utils.py]

    A shallow embedding of [AudioProcessor] (base64, [convert_to_wav],
    [resample_audio]), [AudioBuffer], [VADBuffer] and [AudioValidator], and
    the properties of the voice pipeline that follow from them.

    Modelling conventions.
    - [bytes] objects are lists of [Byte.byte].
    - Python floats (durations, thresholds, [time.perf_counter()] readings)
      are rationals ([Q]).  The buffer classes compute with them exactly;
      [Binary64] gives the rounding of IEEE double arithmetic, and
      [VADFloat] restates the arithmetic of [VADBuffer.should_trigger] with
      that rounding applied after every operation, as Python does.
    - The wall clock is an input: every method that reads
      [time.perf_counter()] takes the reading as its argument [now].
    - Methods that only touch the fields of [self] are pure functions on the
      record of fields.  Methods that call pydub run in a small monad with
      the object as state, Python exceptions as results, and a log of the
      pydub calls that were made.
    - pydub (and ffmpeg behind it) is not part of the repository: its two
      entry points are the fields of [Pydub], over which every statement is
      quantified.  [from pydub import AudioSegment] is taken to succeed. *)

From Stdlib Require Import ZArith NArith QArith Qreduction Qpower Qround.
From Stdlib Require Import List Bool String Lia Lqa.
From Stdlib.Strings Require Import Byte Ascii.
Import ListNotations.

(** ** Byte strings *)

Definition bytes := list byte.

(** [len(b)] *)
Definition len {A} (l : list A) : Z := Z.of_nat (List.length l).

(** [b''.join(chunks)] *)
Definition join (chunks : list bytes) : bytes := List.concat chunks.

(** [not xs] on a list *)
Definition is_empty {A} (l : list A) : bool :=
  match l with [] => true | _ :: _ => false end.

(** ** Exceptions and results

    [exn] stands for the subclasses of [Exception], which is what the
    [except Exception] clauses of the module catch and what numpy and pydub
    raise on bad input. *)

Inductive exn : Type :=
| ValueError (msg : string)
| CouldntDecodeError (msg : string)
| OtherException (msg : string).

Inductive result (A : Type) : Type :=
| Ok (a : A)
| Raised (e : exn).
Arguments Ok {A} a.
Arguments Raised {A} e.

Definition is_ok {A} (r : result A) : bool :=
  match r with Ok _ => true | Raised _ => false end.

(** ** numpy: [np.frombuffer(b, dtype=np.int16)] *)

(** One little-endian two's-complement 16-bit sample. *)
Definition int16_of (lo hi : byte) : Z :=
  let u := (Z.of_N (Byte.to_N lo) + 256 * Z.of_N (Byte.to_N hi))%Z in
  if (u <? 32768)%Z then u else (u - 65536)%Z.

(** numpy raises [ValueError] when the buffer size is not a multiple of the
    element size; an empty buffer gives an empty array. *)
Fixpoint np_frombuffer_int16 (b : bytes) : result (list Z) :=
  match b with
  | [] => Ok []
  | [_] => Raised (ValueError "buffer size must be a multiple of element size")
  | lo :: hi :: rest =>
      match np_frombuffer_int16 rest with
      | Ok xs => Ok (int16_of lo hi :: xs)
      | Raised e => Raised e
      end
  end.

(** [np.mean(a)] of a non-empty array. *)
Definition np_mean (a : list Q) : Q :=
  Qred (fold_left (fun acc x => Qred (acc + x)) a 0 / inject_Z (len a)).

Definition Qlt_bool (x y : Q) : bool := negb (Qle_bool y x).

(** [np.sqrt(m) < thr] for [m >= 0], without taking the root:
    the root is non-negative, so the test fails for [thr <= 0], and for
    [thr > 0] it is [m < thr * thr]. *)
Definition sqrt_lt (m thr : Q) : bool :=
  Qlt_bool 0 thr && Qlt_bool m (thr * thr).

(** ** IEEE binary64 rounding

    The value Python's float arithmetic gives for an exact result [x]:
    the nearest number with a 53-bit significand, ties to the even
    significand, with the exponent held at -1074 for subnormal results.
    Overflow is left out: a result of magnitude [2^1024] or more is
    infinite in Python and stays finite here. *)

Module Binary64.

Definition pow2 (e : Z) : Q := 2 ^ e.

(** [floor (log2 x)] for [x > 0]: the difference of the bit lengths of
    numerator and denominator, or one less. *)
Definition ilog2 (x : Q) : Z :=
  let k := (Z.log2 (Qnum x) - Z.log2 (Zpos (Qden x)))%Z in
  if Qle_bool (pow2 k) x then k else (k - 1)%Z.

(** Nearest integer, ties to even. *)
Definition rne (q : Q) : Z :=
  let f := Qfloor q in
  match Qcompare (q - inject_Z f) (1 # 2) with
  | Lt => f
  | Gt => (f + 1)%Z
  | Eq => if Z.even f then f else (f + 1)%Z
  end.

(** The exponent of the last place of the result. *)
Definition expo (x : Q) : Z := Z.max (ilog2 x - 52) (-1074).

Definition round_pos (x : Q) : Q :=
  inject_Z (rne (x / pow2 (expo x))) * pow2 (expo x).

Definition round (x : Q) : Q :=
  match Qnum x with
  | Z0 => 0
  | Zpos _ => Qred (round_pos x)
  | Zneg _ => Qred (- round_pos (- x))
  end.

End Binary64.

(** ** pydub *)

Record AudioSegment : Type := mkAudioSegment {
  raw_data : bytes;
  frame_rate : Z;
  channels : Z
}.

(** The two pydub calls the module makes.  [from_file data fmt] is
    [AudioSegment.from_file(io.BytesIO(data), format=fmt)], with [None] for
    automatic detection; [export audio fmt] is the bytes read back from
    [audio.export(buf, format=fmt)].  Either can raise. *)
Record Pydub : Type := mkPydub {
  from_file : bytes -> option string -> result AudioSegment;
  export : AudioSegment -> string -> result bytes
}.

Inductive event : Type :=
| EvFromFile (data : bytes) (fmt : option string)
| EvExport (audio : AudioSegment) (fmt : string).

(** ** The method monad: object state, exceptions, log of pydub calls *)

Module Method.

Definition M (S A : Type) : Type := S -> result A * S * list event.

Definition ret {S A} (a : A) : M S A := fun s => (Ok a, s, []).

Definition bind {S A B} (m : M S A) (f : A -> M S B) : M S B :=
  fun s =>
    match m s with
    | (Ok a, s1, log1) =>
        let '(r, s2, log2) := f a s1 in (r, s2, log1 ++ log2)
    | (Raised e, s1, log1) => (Raised e, s1, log1)
    end.

(** [try: m except Exception as e: h e] *)
Definition try_except {S A} (m : M S A) (h : exn -> M S A) : M S A :=
  fun s =>
    match m s with
    | (Ok a, s1, log1) => (Ok a, s1, log1)
    | (Raised e, s1, log1) =>
        let '(r, s2, log2) := h e s1 in (r, s2, log1 ++ log2)
    end.

Definition get {S} : M S S := fun s => (Ok s, s, []).

Definition modify {S} (f : S -> S) : M S unit := fun s => (Ok tt, f s, []).

Definition call_from_file {S} (p : Pydub) (data : bytes) (fmt : option string)
  : M S AudioSegment :=
  fun s => (from_file p data fmt, s, [EvFromFile data fmt]).

Definition call_export {S} (p : Pydub) (audio : AudioSegment) (fmt : string)
  : M S bytes :=
  fun s => (export p audio fmt, s, [EvExport audio fmt]).

(** Projections of one run. *)
Definition outcome {S A} (r : result A * S * list event) : result A := fst (fst r).
Definition state_after {S A} (r : result A * S * list event) : S := snd (fst r).
Definition calls {S A} (r : result A * S * list event) : list event := snd r.

End Method.

Declare Scope method_scope.
Delimit Scope method_scope with method.
Notation "x <- m ;; k" := (Method.bind m (fun x => k))
  (at level 61, m at next level, right associativity) : method_scope.
Notation "m ;;; k" := (Method.bind m (fun _ => k))
  (at level 61, right associativity) : method_scope.
Notation "'try' m 'except' h" := (Method.try_except m h)
  (at level 60, m at level 200, h at level 200) : method_scope.

Local Open Scope string_scope.

(** ** class VADBuffer *)

Module VADBuffer.

Record t : Type := mk {
  silence_threshold_ms : Z;
  max_duration_s : Q;
  rms_silence_threshold : Q;
  sample_rate : Z;
  chunks : list bytes;
  total_bytes : Z;
  silence_start_time : option Q;
  has_speech : bool
}.

(** [__init__], with the defaults of the signature in [default]. *)
Definition init (silence_threshold_ms : Z) (max_duration_s : Q)
    (rms_silence_threshold : Q) (sample_rate : Z) : t :=
  {| silence_threshold_ms := silence_threshold_ms;
     max_duration_s := max_duration_s;
     rms_silence_threshold := rms_silence_threshold;
     sample_rate := sample_rate;
     chunks := [];
     total_bytes := 0;
     silence_start_time := None;
     has_speech := false |}.

Definition default : t := init 1000 6 (1 # 100) 16000.

(** Field assignments [self.f = v]. *)
Definition set_chunks (v : list bytes) (self : t) : t :=
  mk (silence_threshold_ms self) (max_duration_s self)
     (rms_silence_threshold self) (sample_rate self)
     v (total_bytes self) (silence_start_time self) (has_speech self).

Definition set_total_bytes (v : Z) (self : t) : t :=
  mk (silence_threshold_ms self) (max_duration_s self)
     (rms_silence_threshold self) (sample_rate self)
     (chunks self) v (silence_start_time self) (has_speech self).

Definition set_silence_start_time (v : option Q) (self : t) : t :=
  mk (silence_threshold_ms self) (max_duration_s self)
     (rms_silence_threshold self) (sample_rate self)
     (chunks self) (total_bytes self) v (has_speech self).

Definition set_has_speech (v : bool) (self : t) : t :=
  mk (silence_threshold_ms self) (max_duration_s self)
     (rms_silence_threshold self) (sample_rate self)
     (chunks self) (total_bytes self) (silence_start_time self) v.

(** [_is_silence]: RMS energy of the int16 samples, normalised to [-1, 1],
    against [rms_silence_threshold].  The [except Exception] branch answers
    [False]; the explicit test on an empty sample array answers [True]. *)
Definition _is_silence (self : t) (audio_bytes : bytes) : bool :=
  match np_frombuffer_int16 audio_bytes with
  | Ok samples =>
      if (len samples =? 0)%Z then true
      else
        let audio_array := map (fun x => inject_Z x / 32768) samples in
        let mean_sq := np_mean (map (fun x => x * x) audio_array) in
        sqrt_lt mean_sq (rms_silence_threshold self)
  | Raised _ => false
  end.

(** [add_chunk]; [now] is what [time.perf_counter()] returns during the call. *)
Definition add_chunk (now : Q) (audio_bytes : bytes) (self : t) : t :=
  let self := set_chunks (chunks self ++ [audio_bytes]) self in
  let self := set_total_bytes (total_bytes self + len audio_bytes) self in
  let is_silence := _is_silence self audio_bytes in
  if is_silence then
    match silence_start_time self with
    | None => set_silence_start_time (Some now) self
    | Some _ => self
    end
  else
    let self := set_silence_start_time None self in
    set_has_speech true self.

(** [get_duration] *)
Definition get_duration (self : t) : Q := inject_Z (total_bytes self) / 3200.

(** [get_chunk_count] *)
Definition get_chunk_count (self : t) : Z := len (chunks self).

(** [should_trigger]; [now] is what [time.perf_counter()] returns. *)
Definition should_trigger (now : Q) (self : t) : bool :=
  if negb (has_speech self) then false
  else
    if match silence_start_time self with
       | Some start =>
           let silence_duration_ms := (now - start) * 1000 in
           Qle_bool (inject_Z (silence_threshold_ms self)) silence_duration_ms
       | None => false
       end
    then true
    else
      let estimated_duration := inject_Z (total_bytes self) / 3200 in
      if Qle_bool (max_duration_s self) estimated_duration then true
      else false.

(** [clear] *)
Definition clear (self : t) : t :=
  let self := set_chunks [] self in
  let self := set_total_bytes 0 self in
  let self := set_silence_start_time None self in
  set_has_speech false self.

(** A timed fragment: the bytes and the clock reading during its
    [add_chunk]. *)
Definition fragment : Type := (bytes * Q)%type.

(** Successive [add_chunk] calls, in list order. *)
Definition add_chunks (frags : list fragment) (self : t) : t :=
  fold_left (fun s f => add_chunk (snd f) (fst f) s) frags self.

(** A buffer right after [__init__] or [clear]. *)
Inductive fresh : t -> Prop :=
| fresh_init thr maxd rms rate : fresh (init thr maxd rms rate)
| fresh_clear self : fresh (clear self).

(** How the buffer with the settings of [self] classifies a fragment. *)
Definition silent (self : t) (f : fragment) : Prop :=
  _is_silence self (fst f) = true.

Definition voiced (self : t) (f : fragment) : Prop :=
  _is_silence self (fst f) = false.

Section WithPydub.

Variable pydub : Pydub.

Local Open Scope method_scope.

(** [get_audio_and_reset] *)
Definition get_audio_and_reset : Method.M t bytes :=
  self <- Method.get ;;
  if is_empty (chunks self) then Method.ret []
  else
    wav_bytes <-
      (try
         (self <- Method.get ;;
          let combined_bytes := join (chunks self) in
          audio <-
            (try Method.call_from_file pydub combined_bytes (Some "webm")
             except (fun _ => Method.call_from_file pydub combined_bytes None)) ;;
          Method.call_export pydub audio "wav")
       except
         (fun _ => self <- Method.get ;; Method.ret (join (chunks self)))) ;;
    Method.modify clear ;;;
    Method.ret wav_bytes.

(** The operations a caller has on the object. *)
Inductive op : Type :=
| OpAddChunk (now : Q) (audio_bytes : bytes)
| OpShouldTrigger (now : Q)
| OpGetAudioAndReset
| OpClear
| OpGetDuration
| OpGetChunkCount.

Definition step (o : op) (self : t) : t :=
  match o with
  | OpAddChunk now b => add_chunk now b self
  | OpGetAudioAndReset => Method.state_after (get_audio_and_reset self)
  | OpClear => clear self
  | OpShouldTrigger _ | OpGetDuration | OpGetChunkCount => self
  end.

(** States an object can be in: built by [__init__], then driven through its
    methods. *)
Inductive reachable : t -> Prop :=
| reach_init thr maxd rms rate : reachable (init thr maxd rms rate)
| reach_step o self : reachable self -> reachable (step o self).

End WithPydub.

End VADBuffer.

(** ** The float arithmetic of VADBuffer.should_trigger

    [should_trigger] with every float operation rounded as Python rounds
    it: the subtraction of the two clock readings, the multiplication by
    1000, the conversion of [total_bytes] to a float and the division by
    [3200.0].  The comparison of a float with the int [silence_threshold_ms]
    and of two floats is exact. *)

Module VADFloat.
Import VADBuffer.

(** [(time.perf_counter() - self.silence_start_time) * 1000] *)
Definition silence_duration_ms (now start : Q) : Q :=
  Binary64.round (Binary64.round (now - start) * 1000).

(** [self.total_bytes / 3200.0] *)
Definition get_duration (self : t) : Q :=
  Binary64.round (Binary64.round (inject_Z (total_bytes self)) / 3200).

(** [should_trigger]; [now] is what [time.perf_counter()] returns. *)
Definition should_trigger (now : Q) (self : t) : bool :=
  if negb (has_speech self) then false
  else
    if match silence_start_time self with
       | Some start =>
           Qle_bool (inject_Z (silence_threshold_ms self))
             (silence_duration_ms now start)
       | None => false
       end
    then true
    else
      let estimated_duration := get_duration self in
      if Qle_bool (max_duration_s self) estimated_duration then true
      else false.

End VADFloat.

(** ** class AudioBuffer *)

Module AudioBuffer.

Record t : Type := mk {
  chunk_duration : Q;
  max_duration : Q;
  chunks : list bytes;
  total_duration : Q
}.

(** [__init__], with the defaults of the signature in [default]. *)
Definition init (chunk_duration max_duration : Q) : t :=
  {| chunk_duration := chunk_duration;
     max_duration := max_duration;
     chunks := [];
     total_duration := 0 |}.

Definition default : t := init 3 60.

Definition set_chunks (v : list bytes) (self : t) : t :=
  mk (chunk_duration self) (max_duration self) v (total_duration self).

Definition set_total_duration (v : Q) (self : t) : t :=
  mk (chunk_duration self) (max_duration self) (chunks self) v.

(** [add] *)
Definition add (audio_data : bytes) (self : t) : t :=
  let self := set_chunks (chunks self ++ [audio_data]) self in
  let estimated_duration := inject_Z (len audio_data) / 3200 in
  set_total_duration (total_duration self + estimated_duration) self.

(** [is_ready] *)
Definition is_ready (self : t) : bool :=
  Qle_bool (chunk_duration self) (total_duration self).

(** [is_full] *)
Definition is_full (self : t) : bool :=
  Qle_bool (max_duration self) (total_duration self).

(** [clear] *)
Definition clear (self : t) : t :=
  let self := set_chunks [] self in
  set_total_duration 0 self.

(** [get_duration] *)
Definition get_duration (self : t) : Q := total_duration self.

(** [get_chunk_count] *)
Definition get_chunk_count (self : t) : Z := len (chunks self).

Section WithPydub.

Variable pydub : Pydub.

Local Open Scope method_scope.

(** [get_audio] *)
Definition get_audio : Method.M t bytes :=
  self <- Method.get ;;
  if is_empty (chunks self) then Method.ret []
  else
    try
      (self <- Method.get ;;
       let combined_bytes := join (chunks self) in
       audio <-
         (try Method.call_from_file pydub combined_bytes (Some "webm")
          except (fun _ => Method.call_from_file pydub combined_bytes None)) ;;
       Method.call_export pydub audio "wav")
    except
      (fun _ => self <- Method.get ;; Method.ret (join (chunks self))).

Inductive op : Type :=
| OpAdd (audio_data : bytes)
| OpIsReady
| OpIsFull
| OpGetAudio
| OpClear
| OpGetDuration
| OpGetChunkCount.

Definition step (o : op) (self : t) : t :=
  match o with
  | OpAdd b => add b self
  | OpGetAudio => Method.state_after (get_audio self)
  | OpClear => clear self
  | OpIsReady | OpIsFull | OpGetDuration | OpGetChunkCount => self
  end.

Inductive reachable : t -> Prop :=
| reach_init cd md : reachable (init cd md)
| reach_step o self : reachable self -> reachable (step o self).

End WithPydub.

End AudioBuffer.

(** ** class AudioValidator *)

Module AudioValidator.

(** [int(x)] on a float: truncation toward zero. *)
Definition int_of_float (x : Q) : Z := Z.quot (Qnum x) (Zpos (Qden x)).

(** [is_valid_audio]; [min_duration] defaults to [0.1]. *)
Definition is_valid_audio (audio_bytes : bytes) (min_duration : Q) : bool :=
  if is_empty audio_bytes || (len audio_bytes =? 0)%Z then false
  else
    let min_bytes := int_of_float (min_duration * 3200) in
    (min_bytes <=? len audio_bytes)%Z.

Definition default_min_duration : Q := 1 # 10.

Section WithPydub.

Variable pydub : Pydub.

Local Open Scope method_scope.

(** [validate_format], a static method: no object state.
    [allowed_formats = None] is the default argument. *)
Definition validate_format (audio_bytes : bytes)
    (allowed_formats : option (list string)) : Method.M unit bool :=
  let allowed_formats :=
    match allowed_formats with
    | None => ["wav"; "mp3"; "webm"; "ogg"]
    | Some l => l
    end in
  try
    (Method.call_from_file pydub audio_bytes None ;;;
     Method.ret true)
  except
    (fun _ => Method.ret false).

End WithPydub.

End AudioValidator.

(** ** class AudioProcessor *)

(** [raise e] *)
Definition raise {S A} (e : exn) : Method.M S A := fun s => (Raised e, s, []).

Module AudioProcessor.

(** *** Python's [base64] module

    [str] values are Rocq strings; the characters from 128 on are the
    non-ASCII ones.  The codec follows CPython's [binascii]: [b2a_base64]
    without the trailing newline, and [a2b_base64] in its default, non-strict
    mode, which skips characters outside the alphabet and stops at a complete
    padding.  [binascii.Error] is a subclass of [ValueError]. *)

Definition table_b2a_base64 : string :=
  "ABCDEFGHIJKLMNOPQRSTUVWXYZabcdefghijklmnopqrstuvwxyz0123456789+/".

Definition BASE64_PAD : Ascii.ascii := "="%char.

(** The character of a 6-bit value. *)
Definition b2a (i : N) : Ascii.ascii :=
  match String.get (N.to_nat i) table_b2a_base64 with
  | Some c => c
  | None => BASE64_PAD
  end.

Fixpoint index_of (c : Ascii.ascii) (s : string) : option N :=
  match s with
  | EmptyString => None
  | String d rest =>
      if Ascii.eqb c d then Some 0%N
      else option_map N.succ (index_of c rest)
  end.

(** The 6-bit value of a character, [None] outside the alphabet. *)
Definition a2b (c : Ascii.ascii) : option N := index_of c table_b2a_base64.

(** Assignment to an [unsigned char]. *)
Definition byte_of_N (n : N) : byte :=
  match Byte.of_N (n mod 256) with
  | Some b => b
  | None => x00
  end.

(** [binascii.b2a_base64(data, newline=False)] *)
Fixpoint b2a_base64 (data : bytes) : string :=
  match data with
  | [] => EmptyString
  | [x] =>
      let x := Byte.to_N x in
      String (b2a (N.shiftr x 2))
        (String (b2a (N.shiftl (N.land x 3) 4))
           (String BASE64_PAD (String BASE64_PAD EmptyString)))
  | [x; y] =>
      let x := Byte.to_N x in
      let y := Byte.to_N y in
      String (b2a (N.shiftr x 2))
        (String (b2a (N.lor (N.shiftl (N.land x 3) 4) (N.shiftr y 4)))
           (String (b2a (N.shiftl (N.land y 15) 2))
              (String BASE64_PAD EmptyString)))
  | x :: y :: z :: rest =>
      let x := Byte.to_N x in
      let y := Byte.to_N y in
      let z := Byte.to_N z in
      String (b2a (N.shiftr x 2))
        (String (b2a (N.lor (N.shiftl (N.land x 3) 4) (N.shiftr y 4)))
           (String (b2a (N.lor (N.shiftl (N.land y 15) 2) (N.shiftr z 6)))
              (String (b2a (N.land z 63)) (b2a_base64 rest))))
  end.

(** [*bin_data++ = b] in front of what the rest of the loop produces. *)
Definition emit (b : byte) (r : result bytes) : result bytes :=
  match r with
  | Ok out => Ok (b :: out)
  | Raised e => Raised e
  end.

(** The loop of [binascii.a2b_base64(data)], with its three variables. *)
Fixpoint a2b_base64_loop (data : string) (quad_pos leftchar pads : N)
  : result bytes :=
  match data with
  | EmptyString =>
      if (quad_pos =? 0)%N then Ok []
      else if (quad_pos =? 1)%N
      then Raised (ValueError "Invalid base64-encoded string")
      else Raised (ValueError "Incorrect padding")
  | String this_ch rest =>
      if Ascii.eqb this_ch BASE64_PAD then
        if (2 <=? quad_pos)%N then
          if (4 <=? quad_pos + (pads + 1))%N then Ok []
          else a2b_base64_loop rest quad_pos leftchar (pads + 1)%N
        else a2b_base64_loop rest quad_pos leftchar pads
      else
        match a2b this_ch with
        | None => a2b_base64_loop rest quad_pos leftchar pads
        | Some v =>
            if (quad_pos =? 0)%N then a2b_base64_loop rest 1%N v 0%N
            else if (quad_pos =? 1)%N then
              emit (byte_of_N (N.lor (N.shiftl leftchar 2) (N.shiftr v 4)))
                (a2b_base64_loop rest 2%N (N.land v 15) 0%N)
            else if (quad_pos =? 2)%N then
              emit (byte_of_N (N.lor (N.shiftl leftchar 4) (N.shiftr v 2)))
                (a2b_base64_loop rest 3%N (N.land v 3) 0%N)
            else
              emit (byte_of_N (N.lor (N.shiftl leftchar 6) v))
                (a2b_base64_loop rest 0%N 0%N 0%N)
        end
  end.

Definition is_ascii (c : Ascii.ascii) : bool := (Ascii.N_of_ascii c <? 128)%N.

Fixpoint all_ascii (s : string) : bool :=
  match s with
  | EmptyString => true
  | String c rest => is_ascii c && all_ascii rest
  end.

(** [base64.b64encode(b)] *)
Definition b64encode (b : bytes) : string := b2a_base64 b.

(** [base64.b64decode(s)] on a [str] *)
Definition b64decode (s : string) : result bytes :=
  if all_ascii s then a2b_base64_loop s 0%N 0%N 0%N
  else Raised (ValueError "string argument should contain only ASCII characters").

(** [base64_to_bytes] *)
Definition base64_to_bytes (base64_str : string) : result bytes :=
  match b64decode base64_str with
  | Ok b => Ok b
  | Raised _ => Raised (ValueError "Invalid base64 audio data")
  end.

(** [bytes_to_base64]; the encoder's output is ASCII, so [decode('utf-8')]
    keeps it character for character. *)
Definition bytes_to_base64 (audio_bytes : bytes) : string :=
  b64encode audio_bytes.

Section WithPydub.

Variable pydub : Pydub.

Local Open Scope method_scope.

(** [convert_to_wav]; [source_format] defaults to ["webm"].  The handler
    logs and re-raises. *)
Definition convert_to_wav (audio_bytes : bytes) (source_format : string)
  : Method.M unit bytes :=
  try
    (audio <- Method.call_from_file pydub audio_bytes (Some source_format) ;;
     Method.call_export pydub audio "wav")
  except
    (fun e => raise e).

(** The pydub operations of [resample_audio] that change a segment;
    [frame_rate] and [channels] are attributes of the segment itself. *)
Variable set_frame_rate : AudioSegment -> Z -> result AudioSegment.
Variable set_channels : AudioSegment -> Z -> result AudioSegment.

(** A pydub call without a log entry. *)
Definition lift {A} (r : result A) : Method.M unit A := fun s => (r, s, []).

(** [resample_audio]; [target_sample_rate] defaults to 16000.
    [AudioSegment.from_wav(f)] is [from_file(f, 'wav')]. *)
Definition resample_audio (audio_bytes : bytes) (target_sample_rate : Z)
  : Method.M unit bytes :=
  try
    (audio <- Method.call_from_file pydub audio_bytes (Some "wav") ;;
     audio <-
       (if negb (frame_rate audio =? target_sample_rate)%Z
        then lift (set_frame_rate audio target_sample_rate)
        else Method.ret audio) ;;
     audio <-
       (if (1 <? channels audio)%Z
        then lift (set_channels audio 1)
        else Method.ret audio) ;;
     Method.call_export pydub audio "wav")
  except
    (fun e => raise e).

End WithPydub.

End AudioProcessor.

(** ** Finite checks behind the base64 round trip

    The facts about the alphabet and about the bit arithmetic on bytes are
    decided by running over all values; [upto n] lists [0 .. n-1]. *)

Definition upto (n : nat) : list N := map N.of_nat (seq 0 n).

Definition forall2b (n m : nat) (f : N -> N -> bool) : bool :=
  forallb (fun x => forallb (f x) (upto m)) (upto n).

(** Every 6-bit value has an ASCII character other than the pad, and the
    character maps back to the value. *)
Definition check_table (i : N) : bool :=
  match AudioProcessor.a2b (AudioProcessor.b2a i) with
  | Some j => (j =? i)%N
  | None => false
  end
  && negb (Ascii.eqb (AudioProcessor.b2a i) AudioProcessor.BASE64_PAD)
  && AudioProcessor.is_ascii (AudioProcessor.b2a i).

(** First output byte of a group, from the sextets of [x] and [y]. *)
Definition check_byte1 (x y : N) : bool :=
  let v1 := N.shiftr x 2 in
  let v2 := N.lor (N.shiftl (N.land x 3) 4) (N.shiftr y 4) in
  (v1 <? 64)%N && (v2 <? 64)%N
  && (N.lor (N.shiftl v1 2) (N.shiftr v2 4) =? x)%N.

(** The same for a one-byte tail, whose second sextet has no part of [y]. *)
Definition check_byte1_tail (x : N) : bool :=
  let v1 := N.shiftr x 2 in
  let v2 := N.shiftl (N.land x 3) 4 in
  (v1 <? 64)%N && (v2 <? 64)%N
  && (N.lor (N.shiftl v1 2) (N.shiftr v2 4) =? x)%N
  && (N.land x 3 <? 4)%N && (N.shiftr x 6 <? 4)%N.

(** Second output byte, with the two bits [p] of the byte before and the
    two bits [q] of the byte after. *)
Definition check_byte2 (p q y : N) : bool :=
  let v2 := N.lor (N.shiftl p 4) (N.shiftr y 4) in
  let v3 := N.lor (N.shiftl (N.land y 15) 2) q in
  (N.lor (N.shiftl (N.land v2 15) 4) (N.shiftr v3 2) =? y)%N.

(** The same for a two-byte tail, whose third sextet has no part of [z]. *)
Definition check_byte2_tail (x y : N) : bool :=
  let v2 := N.lor (N.shiftl (N.land x 3) 4) (N.shiftr y 4) in
  let v3 := N.shiftl (N.land y 15) 2 in
  (v3 <? 64)%N
  && (N.lor (N.shiftl (N.land v2 15) 4) (N.shiftr v3 2) =? y)%N.

(** Third output byte, from the sextets of [y] and [z]. *)
Definition check_byte3 (y z : N) : bool :=
  let v3 := N.lor (N.shiftl (N.land y 15) 2) (N.shiftr z 6) in
  let v4 := N.land z 63 in
  (v3 <? 64)%N && (v4 <? 64)%N
  && (N.lor (N.shiftl (N.land v3 3) 6) v4 =? z)%N.

(** ** What assembly promises

    The three-tier policy of [get_audio] and [get_audio_and_reset], read off
    one run over the concatenation [combined]: the call returns, the first
    pydub call decodes [combined] as webm, automatic detection is tried
    exactly when that raised, and the raw concatenation comes back when both
    raised (or when the export of a decoded segment raised). *)
Definition export_or_raw (pydub : Pydub) (a : AudioSegment) (combined : bytes)
  : bytes :=
  match export pydub a "wav" with
  | Ok wav => wav
  | Raised _ => combined
  end.

Definition assembly_contract {S} (pydub : Pydub) (combined : bytes)
    (run : result bytes * S * list event) : Prop :=
  (exists out, Method.outcome run = Ok out) /\
  hd_error (Method.calls run) = Some (EvFromFile combined (Some "webm")) /\
  (forall a,
     from_file pydub combined (Some "webm") = Ok a ->
     Method.calls run =
       [EvFromFile combined (Some "webm"); EvExport a "wav"] /\
     Method.outcome run = Ok (export_or_raw pydub a combined)) /\
  (forall e a,
     from_file pydub combined (Some "webm") = Raised e ->
     from_file pydub combined None = Ok a ->
     Method.calls run =
       [EvFromFile combined (Some "webm"); EvFromFile combined None;
        EvExport a "wav"] /\
     Method.outcome run = Ok (export_or_raw pydub a combined)) /\
  (forall e1 e2,
     from_file pydub combined (Some "webm") = Raised e1 ->
     from_file pydub combined None = Raised e2 ->
     Method.calls run =
       [EvFromFile combined (Some "webm"); EvFromFile combined None] /\
     Method.outcome run = Ok combined).

(** What the documentation of [validate_format] promises: the bytes decode
    under one of the allowed formats. *)
Definition decodes_under_allowed (pydub : Pydub) (audio_bytes : bytes)
    (allowed_formats : list string) : bool :=
  existsb (fun f => is_ok (from_file pydub audio_bytes (Some f)))
          allowed_formats.

(** ** Test data *)

(** [n] zero bytes: digital silence. *)
Definition zeros (n : nat) : bytes := repeat x00 n.

(** A loud fragment: two samples of value 16384 (0.5 after normalisation). *)
Definition loud : bytes := [x00; x40; x00; x40].

(** A decoder that rejects everything. *)
Definition pydub_undecodable : Pydub :=
  {| from_file := fun _ _ => Raised (CouldntDecodeError "Decoding failed");
     export := fun a _ => Ok (raw_data a) |}.

(** A decoder that only knows FLAC: it accepts a stream that starts with
    the magic [fLaC], under automatic detection or format [flac]. *)
Definition is_flac (data : bytes) : bool :=
  match data with
  | x66 :: x4c :: x61 :: x43 :: _ => true
  | _ => false
  end.

Definition pydub_flac : Pydub :=
  {| from_file := fun data fmt =>
       let fmt_ok :=
         match fmt with None => true | Some f => String.eqb f "flac" end in
       if is_flac data && fmt_ok
       then Ok (mkAudioSegment (skipn 4 data) 16000 1)
       else Raised (CouldntDecodeError "Decoding failed");
     export := fun a _ => Ok (raw_data a) |}.

(** A decoder that accepts every stream under every format and exports
    the samples as they are. *)
Definition pydub_lenient : Pydub :=
  {| from_file := fun data _ => Ok (mkAudioSegment data 16000 1);
     export := fun a _ => Ok (raw_data a) |}.

Definition flac_file : bytes := [x66; x4c; x61; x43; x00; x40; x00; x40].

(** Closes one case of [assembly_contract] once the results of the pydub
    calls are known: the conjuncts whose premise contradicts the case go by
    [discriminate], the others by computation. *)
Ltac contract_case :=
  repeat match goal with
    | |- _ /\ _ => split
    | |- forall _, _ => intro
    | |- exists _, _ => eexists
    | H : Raised _ = Ok _ |- _ => discriminate H
    | H : Ok _ = Raised _ |- _ => discriminate H
    | H : Ok _ = Ok _ |- _ => injection H as H; subst
    end;
  repeat match goal with
    | H : export _ _ _ = _ |- _ => rewrite H
    end;
  reflexivity.

(** ** Properties of binary64 rounding *)

Module Binary64Facts.
Import Binary64.
Local Open Scope Q_scope.

Lemma two_nonzero : ~ 2 == 0.
Proof. discriminate. Qed.

Lemma pow2_pos (e : Z) : 0 < pow2 e.
Proof. apply Qpower_0_lt. reflexivity. Qed.

Lemma pow2_le (a b : Z) : (a <= b)%Z -> pow2 a <= pow2 b.
Proof. intros H. apply Qpower_le_compat_l; [exact H|discriminate]. Qed.

Lemma pow2_plus (a b : Z) : pow2 (a + b) == pow2 a * pow2 b.
Proof. apply Qpower_plus, two_nonzero. Qed.

Lemma pow2_Z (e : Z) : (0 <= e)%Z -> pow2 e == inject_Z (2 ^ e).
Proof. intros H. unfold pow2. now rewrite Zpower_Qpower. Qed.

Lemma Qnum_pos (x : Q) : 0 < x <-> (0 < Qnum x)%Z.
Proof. unfold Qlt. cbn. lia. Qed.

(** A quotient against a bound, by cross-multiplication. *)
Lemma Qdiv_lt_iff (a b c : Q) : 0 < b -> (a / b < c <-> a < c * b).
Proof.
  intros Hb. split; intros H.
  - apply (Qmult_lt_r _ _ b Hb) in H.
    assert (E : a / b * b == a) by (field; intros E0; rewrite E0 in Hb; discriminate).
    now rewrite E in H.
  - apply Qlt_shift_div_r; assumption.
Qed.

Lemma Qdiv_le_iff (a b c : Q) : 0 < b -> (c <= a / b <-> c * b <= a).
Proof.
  intros Hb. split; intros H.
  - apply (Qmult_le_r _ _ b Hb) in H.
    assert (E : a / b * b == a) by (field; intros E0; rewrite E0 in Hb; discriminate).
    now rewrite E in H.
  - apply Qle_shift_div_l; assumption.
Qed.

Lemma log2_bounds (n : Z) :
  (0 < n)%Z -> pow2 (Z.log2 n) <= inject_Z n /\ inject_Z n < pow2 (Z.log2 n + 1).
Proof.
  intros Hn. pose proof (Z.log2_nonneg n) as H0.
  destruct (Z.log2_spec n Hn) as [H1 H2].
  rewrite !pow2_Z by lia. rewrite <- Zle_Qle, <- Zlt_Qlt.
  replace (Z.log2 n + 1)%Z with (Z.succ (Z.log2 n)) by lia. auto.
Qed.

Lemma ilog2_spec (x : Q) :
  0 < x -> pow2 (ilog2 x) <= x /\ x < pow2 (ilog2 x + 1).
Proof.
  intros Hx. destruct x as [n d].
  apply Qnum_pos in Hx as Hn. cbn [Qnum] in Hn.
  unfold ilog2. cbn [Qnum Qden].
  set (a := Z.log2 n). set (b := Z.log2 (Z.pos d)).
  destruct (log2_bounds n Hn) as [Ha1 Ha2]. fold a in Ha1, Ha2.
  destruct (log2_bounds (Z.pos d) eq_refl) as [Hb1 Hb2]. fold b in Hb1, Hb2.
  assert (E : n # d == inject_Z n / inject_Z (Z.pos d)) by apply Qmake_Qdiv.
  assert (Hd : 0 < inject_Z (Z.pos d)) by reflexivity.
  assert (Hup : n # d < pow2 (a - b + 1)).
  { rewrite E. apply Qdiv_lt_iff; [exact Hd|].
    apply Qlt_le_trans with (y := pow2 (a + 1)); [exact Ha2|].
    replace (a + 1)%Z with ((a - b + 1) + b)%Z by lia.
    rewrite pow2_plus.
    apply Qmult_le_l; [apply pow2_pos|exact Hb1]. }
  assert (Hlow : pow2 (a - b - 1) <= n # d).
  { rewrite E. apply Qdiv_le_iff; [exact Hd|].
    apply Qle_trans with (y := pow2 a); [|exact Ha1].
    replace a with ((a - b - 1) + (b + 1))%Z at 2 by lia.
    rewrite pow2_plus.
    apply Qmult_le_l; [apply pow2_pos|]. apply Qlt_le_weak, Hb2. }
  destruct (Qle_bool (pow2 (a - b)) (n # d)) eqn:Hk.
  - apply Qle_bool_iff in Hk. split; assumption.
  - split; [exact Hlow|].
    replace (a - b - 1 + 1)%Z with (a - b)%Z by lia.
    apply Qnot_le_lt. intros H. apply Qle_bool_iff in H. congruence.
Qed.

Lemma ilog2_mono (x y : Q) : 0 < x -> x <= y -> (ilog2 x <= ilog2 y)%Z.
Proof.
  intros Hx Hxy.
  assert (Hy : 0 < y) by (eapply Qlt_le_trans; eauto).
  destruct (ilog2_spec x Hx) as [Hx1 _].
  destruct (ilog2_spec y Hy) as [_ Hy2].
  destruct (Z.le_gt_cases (ilog2 x) (ilog2 y)) as [H|H]; [exact H|].
  exfalso.
  assert (pow2 (ilog2 y + 1) <= pow2 (ilog2 x)) by (apply pow2_le; lia).
  lra.
Qed.

Lemma rne_bounds (q : Q) : (Qfloor q <= rne q <= Qfloor q + 1)%Z.
Proof.
  unfold rne. destruct (Qcompare _ _); [destruct (Z.even _)| |]; lia.
Qed.

Lemma rne_mono (a b : Q) : a <= b -> (rne a <= rne b)%Z.
Proof.
  intros Hab. pose proof (Qfloor_resp_le a b Hab) as Hf.
  pose proof (rne_bounds a). pose proof (rne_bounds b).
  destruct (Z.eq_dec (Qfloor a) (Qfloor b)) as [E|E]; [|lia].
  unfold rne. rewrite <- E.
  destruct (Qcompare (a - inject_Z (Qfloor a)) (1 # 2)) eqn:Ca;
    destruct (Qcompare (b - inject_Z (Qfloor a)) (1 # 2)) eqn:Cb;
    try (destruct (Z.even (Qfloor a))); try lia; exfalso;
    repeat match goal with
      | H : Qcompare _ _ = Eq |- _ => apply Qeq_alt in H
      | H : Qcompare _ _ = Lt |- _ => apply Qlt_alt in H
      | H : Qcompare _ _ = Gt |- _ => apply Qgt_alt in H
      end; lra.
Qed.

Lemma rne_inject_Z (k : Z) : rne (inject_Z k) = k.
Proof.
  unfold rne. rewrite Qfloor_Z.
  destruct (Qcompare (inject_Z k - inject_Z k) (1 # 2)) eqn:C.
  - exfalso. apply Qeq_alt in C. lra.
  - reflexivity.
  - exfalso. apply Qgt_alt in C. lra.
Qed.

Lemma rne_ge (k : Z) (q : Q) : inject_Z k <= q -> (k <= rne q)%Z.
Proof. intros H. rewrite <- (rne_inject_Z k). now apply rne_mono. Qed.

Lemma rne_le (k : Z) (q : Q) : q <= inject_Z k -> (rne q <= k)%Z.
Proof. intros H. rewrite <- (rne_inject_Z k). now apply rne_mono. Qed.

Lemma round_pos_upper (x : Q) : 0 < x -> round_pos x <= pow2 (expo x + 53).
Proof.
  intros Hx. unfold round_pos.
  destruct (ilog2_spec x Hx) as [_ H2].
  assert (Hq : x / pow2 (expo x) <= inject_Z (2 ^ 53)).
  { rewrite <- pow2_Z by lia. apply Qlt_le_weak.
    apply Qdiv_lt_iff; [apply pow2_pos|]. rewrite <- pow2_plus.
    eapply Qlt_le_trans; [exact H2|]. apply pow2_le. unfold expo. lia. }
  apply rne_le in Hq.
  replace (expo x + 53)%Z with (53 + expo x)%Z by lia.
  rewrite pow2_plus. apply Qmult_le_r; [apply pow2_pos|].
  rewrite (pow2_Z 53) by lia. now rewrite <- Zle_Qle.
Qed.

Lemma round_pos_lower (x : Q) :
  0 < x -> expo x = (ilog2 x - 52)%Z -> pow2 (expo x + 52) <= round_pos x.
Proof.
  intros Hx He. unfold round_pos.
  destruct (ilog2_spec x Hx) as [H1 _].
  assert (Hq : inject_Z (2 ^ 52) <= x / pow2 (expo x)).
  { rewrite <- pow2_Z by lia.
    apply Qdiv_le_iff; [apply pow2_pos|]. rewrite <- pow2_plus.
    eapply Qle_trans; [|exact H1]. apply pow2_le. lia. }
  apply rne_ge in Hq.
  replace (expo x + 52)%Z with (52 + expo x)%Z by lia.
  rewrite pow2_plus. apply Qmult_le_r; [apply pow2_pos|].
  rewrite (pow2_Z 52) by lia. now rewrite <- Zle_Qle.
Qed.

Lemma round_pos_nonneg (x : Q) : 0 < x -> 0 <= round_pos x.
Proof.
  intros Hx. unfold round_pos.
  apply Qmult_le_0_compat; [|apply Qlt_le_weak, pow2_pos].
  change 0 with (inject_Z 0). rewrite <- Zle_Qle. apply rne_ge.
  apply Qle_shift_div_l; [apply pow2_pos|].
  change (inject_Z 0) with 0. lra.
Qed.

Lemma round_pos_mono (x y : Q) :
  0 < x -> x <= y -> round_pos x <= round_pos y.
Proof.
  intros Hx Hxy.
  assert (Hy : 0 < y) by (eapply Qlt_le_trans; eauto).
  pose proof (ilog2_mono x y Hx Hxy) as Hl.
  assert (He : (expo x <= expo y)%Z) by (unfold expo; lia).
  destruct (Z.eq_dec (expo x) (expo y)) as [E|E].
  - unfold round_pos. rewrite E.
    apply Qmult_le_r; [apply pow2_pos|]. rewrite <- Zle_Qle.
    apply rne_mono. apply Qmult_le_r; [apply Qinv_lt_0_compat, pow2_pos|exact Hxy].
  - eapply Qle_trans; [apply round_pos_upper, Hx|].
    eapply Qle_trans; [|apply round_pos_lower; [exact Hy|unfold expo in *; lia]].
    apply pow2_le. lia.
Qed.

(** Rounding is monotone. *)
Lemma round_le (x y : Q) : x <= y -> round x <= round y.
Proof.
  intros Hxy. unfold round.
  destruct (Qnum x) as [|n|n] eqn:Ex, (Qnum y) as [|m|m] eqn:Ey;
    rewrite ?Qred_correct.
  - apply Qle_refl.
  - apply round_pos_nonneg, Qnum_pos. rewrite Ey. reflexivity.
  - exfalso. unfold Qle in Hxy. rewrite Ex, Ey in Hxy. cbn in Hxy. lia.
  - exfalso. unfold Qle in Hxy. rewrite Ex, Ey in Hxy. cbn in Hxy. lia.
  - apply round_pos_mono; [apply Qnum_pos; rewrite Ex; reflexivity|exact Hxy].
  - exfalso. unfold Qle in Hxy. rewrite Ex, Ey in Hxy. cbn in Hxy. lia.
  - assert (0 <= round_pos (- x)).
    { apply round_pos_nonneg, Qnum_pos. cbn. rewrite Ex. reflexivity. }
    lra.
  - assert (0 <= round_pos (- x)).
    { apply round_pos_nonneg, Qnum_pos. cbn. rewrite Ex. reflexivity. }
    assert (0 <= round_pos y).
    { apply round_pos_nonneg, Qnum_pos. rewrite Ey. reflexivity. }
    lra.
  - assert (round_pos (- y) <= round_pos (- x)).
    { apply round_pos_mono; [apply Qnum_pos; cbn; rewrite Ey; reflexivity|lra]. }
    lra.
Qed.

End Binary64Facts.

(** ** Properties of VADBuffer *)

Module VADFacts.
Import VADBuffer.

(** [add_chunk] with the classification read off the incoming object: the
    two assignments before the test do not touch the threshold. *)
Lemma add_chunk_unfold now b self :
  add_chunk now b self =
  let self1 :=
    set_total_bytes (total_bytes self + len b)
      (set_chunks (chunks self ++ [b]) self) in
  if _is_silence self b then
    match silence_start_time self with
    | None => set_silence_start_time (Some now) self1
    | Some _ => self1
    end
  else set_has_speech true (set_silence_start_time None self1).
Proof. reflexivity. Qed.

Lemma add_chunk_config now b self :
  silence_threshold_ms (add_chunk now b self) = silence_threshold_ms self /\
  max_duration_s (add_chunk now b self) = max_duration_s self /\
  rms_silence_threshold (add_chunk now b self) = rms_silence_threshold self.
Proof.
  rewrite add_chunk_unfold.
  destruct (_is_silence self b); [destruct (silence_start_time self)|]; cbn; auto.
Qed.

Lemma _is_silence_threshold self self' b :
  rms_silence_threshold self' = rms_silence_threshold self ->
  _is_silence self' b = _is_silence self b.
Proof. intros E. unfold _is_silence. now rewrite E. Qed.

Lemma _is_silence_add_chunk now b self x :
  _is_silence (add_chunk now b self) x = _is_silence self x.
Proof. apply _is_silence_threshold, add_chunk_config. Qed.

Lemma add_chunk_silent now b self :
  _is_silence self b = true ->
  has_speech (add_chunk now b self) = has_speech self /\
  silence_start_time (add_chunk now b self) =
    match silence_start_time self with
    | None => Some now
    | Some start => Some start
    end.
Proof.
  intros E. rewrite add_chunk_unfold, E.
  destruct (silence_start_time self) eqn:Hs; cbn; auto.
Qed.

Lemma add_chunk_voiced now b self :
  _is_silence self b = false ->
  has_speech (add_chunk now b self) = true /\
  silence_start_time (add_chunk now b self) = None.
Proof.
  intros E. rewrite add_chunk_unfold, E. cbn; auto.
Qed.

Lemma has_speech_add_chunk now b self :
  has_speech self = true -> has_speech (add_chunk now b self) = true.
Proof.
  intros E. destruct (_is_silence self b) eqn:Hs.
  - destruct (add_chunk_silent now _ _ Hs) as [-> _]; exact E.
  - apply add_chunk_voiced; exact Hs.
Qed.

Lemma add_chunks_app l1 l2 self :
  add_chunks (l1 ++ l2) self = add_chunks l2 (add_chunks l1 self).
Proof. apply fold_left_app. Qed.

Lemma _is_silence_add_chunks frags self x :
  _is_silence (add_chunks frags self) x = _is_silence self x.
Proof.
  revert self; induction frags as [|f frags IH]; intros self; cbn; [reflexivity|].
  rewrite IH. apply _is_silence_add_chunk.
Qed.

Lemma has_speech_add_chunks frags self :
  has_speech self = true -> has_speech (add_chunks frags self) = true.
Proof.
  revert self; induction frags as [|f frags IH]; intros self E; cbn; [exact E|].
  apply IH, has_speech_add_chunk, E.
Qed.

(** Silence leaves [has_speech] as it was. *)
Lemma has_speech_silent_run frags self :
  Forall (silent self) frags ->
  has_speech (add_chunks frags self) = has_speech self.
Proof.
  revert self; induction frags as [|f frags IH]; intros self F; cbn; [reflexivity|].
  inversion F as [|? ? Hf Hr]; subst.
  rewrite IH.
  - apply add_chunk_silent, Hf.
  - eapply Forall_impl; [|exact Hr].
    intros a Ha; unfold silent in *. now rewrite _is_silence_add_chunk.
Qed.

(** A silence run keeps the start time it finds. *)
Lemma silence_start_silent_run frags self start :
  silence_start_time self = Some start ->
  Forall (silent self) frags ->
  silence_start_time (add_chunks frags self) = Some start.
Proof.
  revert self; induction frags as [|f frags IH]; intros self E F; cbn; [exact E|].
  inversion F as [|? ? Hf Hr]; subst.
  apply IH.
  - destruct (add_chunk_silent (snd f) _ _ Hf) as [_ ->]. now rewrite E.
  - eapply Forall_impl; [|exact Hr].
    intros a Ha; unfold silent in *. now rewrite _is_silence_add_chunk.
Qed.

(** One voiced fragment anywhere in the sequence sets [has_speech]. *)
Lemma has_speech_of_voiced frags self :
  Exists (voiced self) frags -> has_speech (add_chunks frags self) = true.
Proof.
  revert self; induction frags as [|f frags IH]; intros self E; cbn.
  - inversion E.
  - inversion E as [? ? Hf|? ? Hr]; subst.
    + apply has_speech_add_chunks, add_chunk_voiced, Hf.
    + apply IH. eapply Exists_impl; [|exact Hr].
      intros a Ha; unfold voiced in *. now rewrite _is_silence_add_chunk.
Qed.

Lemma should_trigger_idle now self :
  has_speech self = false -> should_trigger now self = false.
Proof. intros E. unfold should_trigger. now rewrite E. Qed.

Lemma fresh_has_speech self : fresh self -> has_speech self = false.
Proof. now destruct 1. Qed.

Lemma silent_transfer self self' frags :
  rms_silence_threshold self' = rms_silence_threshold self ->
  Forall (silent self) frags -> Forall (silent self') frags.
Proof.
  intros E. apply Forall_impl. intros a Ha. unfold silent in *.
  now rewrite (_is_silence_threshold self self' _ E).
Qed.

Lemma add_chunks_threshold frags self :
  rms_silence_threshold (add_chunks frags self) = rms_silence_threshold self.
Proof.
  revert self; induction frags as [|f frags IH]; intros self; cbn; [reflexivity|].
  rewrite IH. apply add_chunk_config.
Qed.

Lemma add_chunks_silence_threshold_ms frags self :
  silence_threshold_ms (add_chunks frags self) = silence_threshold_ms self.
Proof.
  revert self; induction frags as [|f frags IH]; intros self; cbn; [reflexivity|].
  rewrite IH. apply add_chunk_config.
Qed.

(** [add_chunk] appends, so the fragment list is not empty afterwards. *)
Lemma add_chunk_nonempty now b self : chunks (add_chunk now b self) <> [].
Proof.
  rewrite add_chunk_unfold.
  destruct (_is_silence self b); [destruct (silence_start_time self)|]; cbn;
    intros E; apply app_eq_nil in E; destruct E; discriminate.
Qed.

Lemma add_chunks_nonempty frags self :
  chunks self <> [] -> chunks (add_chunks frags self) <> [].
Proof.
  revert self; induction frags as [|f frags IH]; intros self Hn; cbn; [exact Hn|].
  apply IH, add_chunk_nonempty.
Qed.

Lemma Forall_firstn {A} (P : A -> Prop) (l : list A) (n : nat) :
  Forall P l -> Forall P (firstn n l).
Proof.
  intros F; revert n; induction F as [|x l Hx F IH]; intros [|n]; cbn;
    constructor; auto.
Qed.

(** numpy cannot read an odd number of bytes as 16-bit samples. *)
Lemma np_frombuffer_int16_odd_aux b :
  (Nat.odd (List.length b) = true -> exists e, np_frombuffer_int16 b = Raised e) /\
  (forall x, Nat.odd (List.length (x :: b)) = true ->
             exists e, np_frombuffer_int16 (x :: b) = Raised e).
Proof.
  induction b as [|a b [IH1 IH2]].
  - split; [discriminate|]. intros x _. cbn. eauto.
  - split; [apply IH2|]. intros x H.
    change (Nat.odd (List.length (x :: a :: b))) with (Nat.odd (List.length b)) in H.
    destruct (IH1 H) as [e He].
    exists e. cbn [np_frombuffer_int16]. now rewrite He.
Qed.

Lemma np_frombuffer_int16_odd b :
  Nat.odd (List.length b) = true -> exists e, np_frombuffer_int16 b = Raised e.
Proof. apply np_frombuffer_int16_odd_aux. Qed.

(** The state [get_audio_and_reset] leaves behind, whatever pydub does. *)
Lemma get_audio_and_reset_state pydub self :
  Method.state_after (get_audio_and_reset pydub self) =
  if is_empty (chunks self) then self else clear self.
Proof.
  unfold get_audio_and_reset, Method.bind, Method.try_except, Method.get,
    Method.call_from_file, Method.call_export, Method.modify, Method.ret,
    Method.state_after.
  destruct (chunks self) as [|c cs]; cbn; [reflexivity|].
  destruct (from_file pydub _ (Some "webm")) as [a|e]; cbn.
  - destruct (export pydub a "wav"); reflexivity.
  - destruct (from_file pydub _ None) as [a|e']; cbn; [|reflexivity].
    destruct (export pydub a "wav"); reflexivity.
Qed.

(** In a reachable state an empty fragment list means the idle state: the
    only ways to an empty list are [__init__] and [clear]. *)
Lemma reachable_empty_idle pydub self :
  reachable pydub self ->
  chunks self = [] ->
  has_speech self = false /\ silence_start_time self = None /\
  total_bytes self = 0%Z.
Proof.
  induction 1 as [|o self R IH]; [cbn; auto|].
  destruct o; cbn [step]; auto.
  - intros E. now apply add_chunk_nonempty in E.
  - rewrite get_audio_and_reset_state.
    destruct (chunks self) eqn:E; cbn; auto.
Qed.

(** ** The claims about VADBuffer *)

(** C1, as stated, fails: six fragments of 3200 zero bytes reach the
    estimated six seconds of the default configuration, each classifies as
    silence, and [should_trigger] still answers [False], because no speech was
    seen. *)
Lemma backstop_silent_on_pure_silence :
  let frags := map (fun i => (zeros 3200, inject_Z i)) [0; 1; 2; 3; 4; 5]%Z in
  let self := add_chunks frags default in
  forallb (fun f => _is_silence default (fst f)) frags = true /\
  Qle_bool (max_duration_s self) (get_duration self) = true /\
  should_trigger 6 self = false.
Proof. vm_compute. auto. Qed.

(** C1, amended: once some fragment of the sequence classified as
    non-silence, an estimated duration (total buffered bytes over 3200) of at
    least [max_duration_s] makes [should_trigger] answer [True], at any time
    and whatever the silence pattern. *)
Theorem max_duration_backstop :
  forall (self0 : t) (frags : list fragment) (now : Q),
    Exists (voiced self0) frags ->
    max_duration_s (add_chunks frags self0)
      <= get_duration (add_chunks frags self0) ->
    should_trigger now (add_chunks frags self0) = true.
Proof.
  intros self0 frags now Hv Hd.
  unfold should_trigger.
  rewrite (has_speech_of_voiced _ _ Hv); cbn [negb].
  apply Qle_bool_iff in Hd. unfold get_duration in Hd. rewrite Hd.
  destruct (silence_start_time (add_chunks frags self0)) as [start|];
    [destruct (Qle_bool _ ((now - start) * 1000))|]; reflexivity.
Qed.

Lemma max_duration_backstop_witness :
  should_trigger 0
    (add_chunks [(loud, 0); (zeros 4, 1 # 10)] (init 1000 (1 # 1000) (1 # 100) 16000))
  = true.
Proof.
  apply max_duration_backstop.
  - apply Exists_cons_hd. vm_compute. reflexivity.
  - vm_compute. discriminate.
Defined.

(** C2: on a fresh or freshly reset buffer, a sequence of fragments that all
    classify as silence never makes [should_trigger] answer [True]: not after
    any number [n] of them, and not at any time [now]. *)
Theorem pure_silence_never_triggers :
  forall (self0 : t) (frags : list fragment),
    fresh self0 ->
    Forall (silent self0) frags ->
    forall (n : nat) (now : Q),
      should_trigger now (add_chunks (firstn n frags) self0) = false.
Proof.
  intros self0 frags Hf Hs n now.
  apply should_trigger_idle.
  rewrite has_speech_silent_run.
  - apply fresh_has_speech, Hf.
  - apply Forall_firstn, Hs.
Qed.

Lemma pure_silence_never_triggers_witness :
  should_trigger 1000
    (add_chunks (firstn 2 [(zeros 3200, 0); (zeros 3200, 1); ([], 2)]) default)
  = false.
Proof.
  apply pure_silence_never_triggers.
  - apply fresh_init.
  - repeat constructor; vm_compute; reflexivity.
Defined.

(** The duration the code measures grows with the clock: each of its two
    rounded operations is monotone. *)
Lemma silence_duration_ms_le (start now later : Q) :
  now <= later ->
  VADFloat.silence_duration_ms now start
  <= VADFloat.silence_duration_ms later start.
Proof.
  intros H. unfold VADFloat.silence_duration_ms.
  assert (H1 : Binary64.round (now - start) <= Binary64.round (later - start))
    by (apply Binary64Facts.round_le; lra).
  apply Binary64Facts.round_le. lra.
Qed.

Lemma should_trigger_float_idle now self :
  has_speech self = false -> VADFloat.should_trigger now self = false.
Proof. intros E. unfold VADFloat.should_trigger. now rewrite E. Qed.

(** C3: after a fragment classified as non-silence, followed only by
    fragments classified as silence, the recorded [silence_start_time] is the
    time [t1] of the first silent fragment of the run; once the duration the
    code measures from it, [(now - silence_start_time) * 1000] in float
    arithmetic, has reached [silence_threshold_ms] at a time [now] not
    before [t1] (the clock is monotonic), [should_trigger] answers [True]
    at [now] and at every later time, and answers [False] again after
    [get_audio_and_reset].  (A duration that is non-negative can only
    overflow to [+inf], which passes the test of the code as well.) *)
Theorem trailing_silence_triggers_until_reset :
  forall (pydub : Pydub) (self0 : t) (pre : list fragment) (sp : fragment)
         (b1 : bytes) (t1 : Q) (rest : list fragment) (now later : Q),
    voiced self0 sp ->
    Forall (silent self0) ((b1, t1) :: rest) ->
    t1 <= now ->
    inject_Z (silence_threshold_ms self0)
      <= VADFloat.silence_duration_ms now t1 ->
    now <= later ->
    let self := add_chunks (pre ++ sp :: (b1, t1) :: rest)%list self0 in
    silence_start_time self = Some t1 /\
    VADFloat.should_trigger later self = true /\
    forall t : Q,
      VADFloat.should_trigger t
        (Method.state_after (get_audio_and_reset pydub self))
      = false.
Proof.
  intros pydub self0 pre sp b1 t1 rest now later Hsp Hsil _ Hthr Hlater self.
  inversion Hsil as [|? ? Hb1 Hrest]; subst.
  set (s1 := add_chunks pre self0).
  set (s2 := add_chunk (snd sp) (fst sp) s1).
  set (s3 := add_chunk t1 b1 s2).
  assert (E1 : rms_silence_threshold s1 = rms_silence_threshold self0)
    by apply add_chunks_threshold.
  assert (E2 : rms_silence_threshold s2 = rms_silence_threshold self0)
    by (unfold s2; etransitivity; [apply add_chunk_config|exact E1]).
  assert (E3 : rms_silence_threshold s3 = rms_silence_threshold self0)
    by (unfold s3; etransitivity; [apply add_chunk_config|exact E2]).
  assert (Hself : self = add_chunks rest s3).
  { unfold self. rewrite add_chunks_app. reflexivity. }
  assert (V2 : has_speech s2 = true /\ silence_start_time s2 = None).
  { apply add_chunk_voiced. unfold voiced in Hsp.
    now rewrite (_is_silence_threshold self0 s1 _ E1). }
  destruct V2 as [Hs2 Ht2].
  assert (V3 : has_speech s3 = true /\ silence_start_time s3 = Some t1).
  { destruct (add_chunk_silent t1 b1 s2) as [Ha Hb].
    - unfold silent in Hb1; cbn in Hb1.
      now rewrite (_is_silence_threshold self0 s2 _ E2).
    - fold s3 in Ha, Hb. rewrite Ha, Hb, Ht2. auto. }
  destruct V3 as [Hs3 Ht3].
  assert (Hstart : silence_start_time self = Some t1).
  { rewrite Hself. apply silence_start_silent_run; [exact Ht3|].
    eapply silent_transfer; [exact E3|exact Hrest]. }
  assert (Hspeech : has_speech self = true).
  { rewrite Hself. apply has_speech_add_chunks, Hs3. }
  assert (Hcfg : silence_threshold_ms self = silence_threshold_ms self0).
  { apply add_chunks_silence_threshold_ms. }
  split; [exact Hstart|]. split.
  - unfold VADFloat.should_trigger.
    rewrite Hspeech, Hstart, Hcfg; cbn [negb].
    replace (Qle_bool (inject_Z (silence_threshold_ms self0))
               (VADFloat.silence_duration_ms later t1)) with true;
      [reflexivity|].
    symmetry. apply Qle_bool_iff.
    eapply Qle_trans; [exact Hthr|]. apply silence_duration_ms_le, Hlater.
  - intros t. apply should_trigger_float_idle.
    rewrite get_audio_and_reset_state.
    destruct (chunks self) eqn:Hc; cbn; [|reflexivity].
    exfalso. rewrite Hself in Hc.
    apply (add_chunks_nonempty rest s3); [apply add_chunk_nonempty|exact Hc].
Qed.

Lemma trailing_silence_triggers_until_reset_witness :
  let self :=
    add_chunks ([] ++ (loud, 0) :: (zeros 4, 1 # 2) :: [(zeros 4, 1)])%list default in
  silence_start_time self = Some (1 # 2) /\
  VADFloat.should_trigger 2 self = true /\
  forall t : Q,
    VADFloat.should_trigger t
      (Method.state_after (get_audio_and_reset pydub_undecodable self))
    = false.
Proof.
  apply (trailing_silence_triggers_until_reset pydub_undecodable default []
           (loud, 0) (zeros 4) (1 # 2) [(zeros 4, 1)] (3 # 2) 2).
  - vm_compute. reflexivity.
  - repeat constructor; vm_compute; reflexivity.
  - vm_compute. discriminate.
  - vm_compute. discriminate.
  - vm_compute. discriminate.
Defined.

(** Where rounding decides.  With [silence_threshold_ms = 1001], a silence
    run recorded at the double [0.1250000000000001] and a query at the
    double [1.1260000000000001], the exact elapsed time is above 1001 ms,
    but the two rounded operations give [1000.9999999999999]: the test of
    the code fails and, with 8 bytes buffered, [should_trigger] answers
    [False]. *)
Example rounded_silence_test_at_the_boundary :
  let start := 1125899906842625 # 9007199254740992 in
  let now := 5071053180419179 # 4503599627370496 in
  let self :=
    add_chunks [(loud, 0); (zeros 4, start)] (init 1001 6 (1 # 100) 16000) in
  Qle_bool 1001 ((now - start) * 1000) = true /\
  VADFloat.silence_duration_ms now start
    == 8804889115230207 # 8796093022208 /\
  VADFloat.should_trigger now self = false.
Proof. vm_compute. auto. Qed.

(** C4: from every reachable state, and whatever the decoder does with the
    buffered bytes, [get_audio_and_reset] leaves [get_chunk_count() == 0],
    [has_speech == False] and [silence_start_time is None]. *)
Theorem get_audio_and_reset_resets :
  forall (pydub : Pydub) (self : t),
    reachable pydub self ->
    let self' := Method.state_after (get_audio_and_reset pydub self) in
    get_chunk_count self' = 0%Z /\
    has_speech self' = false /\
    silence_start_time self' = None.
Proof.
  intros pydub self R self'. unfold self'.
  rewrite get_audio_and_reset_state.
  destruct (chunks self) eqn:E; cbn; [|auto].
  destruct (reachable_empty_idle pydub self R E) as (H1 & H2 & _).
  unfold get_chunk_count. rewrite E. auto.
Qed.

Lemma get_audio_and_reset_resets_witness :
  let self := add_chunk (1 # 2) (zeros 4) (add_chunk 0 loud default) in
  let self' :=
    Method.state_after (get_audio_and_reset pydub_undecodable self) in
  get_chunk_count self' = 0%Z /\
  has_speech self' = false /\
  silence_start_time self' = None.
Proof.
  apply (get_audio_and_reset_resets pydub_undecodable).
  apply (reach_step pydub_undecodable (OpAddChunk (1 # 2) (zeros 4))).
  apply (reach_step pydub_undecodable (OpAddChunk 0 loud)).
  apply reach_init.
Defined.

(** C5, as stated, fails on a fragment that yields zero samples: the empty
    fragment classifies as silence, so [add_chunk] leaves [has_speech] false
    and starts a silence run. *)
Lemma empty_fragment_is_silence :
  np_frombuffer_int16 [] = Ok [] /\
  _is_silence default [] = true /\
  has_speech (add_chunk 7 [] default) = false /\
  silence_start_time (add_chunk 7 [] default) = Some 7.
Proof. vm_compute. auto. Qed.

(** C5, amended: a fragment that cannot be read as 16-bit samples (an odd
    number of bytes, on which [np.frombuffer] raises) classifies as not
    silence, so [add_chunk] sets [has_speech] and clears
    [silence_start_time]; a fragment of zero samples classifies as silence. *)
Theorem unreadable_fragment_is_speech :
  forall (self : t) (audio_bytes : bytes) (now : Q),
    Nat.odd (List.length audio_bytes) = true ->
    (exists e, np_frombuffer_int16 audio_bytes = Raised e) /\
    _is_silence self audio_bytes = false /\
    has_speech (add_chunk now audio_bytes self) = true /\
    silence_start_time (add_chunk now audio_bytes self) = None /\
    _is_silence self [] = true.
Proof.
  intros self b now Hodd.
  destruct (np_frombuffer_int16_odd b Hodd) as [e He].
  assert (Hs : _is_silence self b = false)
    by (unfold _is_silence; now rewrite He).
  destruct (add_chunk_voiced now b self Hs) as [H1 H2].
  repeat split; eauto.
Qed.

Lemma unreadable_fragment_is_speech_witness :
  (exists e, np_frombuffer_int16 [x00] = Raised e) /\
  _is_silence default [x00] = false /\
  has_speech (add_chunk 0 [x00] default) = true /\
  silence_start_time (add_chunk 0 [x00] default) = None /\
  _is_silence default [] = true.
Proof.
  apply (unreadable_fragment_is_speech default [x00] 0). reflexivity.
Defined.

(** C9: once [has_speech] is true it stays true through every [add_chunk],
    whatever the fragment; an operation after which it is false is [clear]
    or [get_audio_and_reset], and [clear] does make it false. *)
Theorem has_speech_monotone :
  forall (pydub : Pydub) (self : t),
    has_speech self = true ->
    (forall now audio_bytes,
        has_speech (add_chunk now audio_bytes self) = true) /\
    (forall o,
        has_speech (step pydub o self) = false ->
        o = OpClear \/ o = OpGetAudioAndReset) /\
    has_speech (clear self) = false.
Proof.
  intros pydub self H. split; [|split].
  - intros now b. apply has_speech_add_chunk, H.
  - intros o; destruct o; cbn [step]; auto; intros Hf.
    + rewrite (has_speech_add_chunk now audio_bytes self H) in Hf. discriminate.
    + congruence.
    + congruence.
    + congruence.
  - reflexivity.
Qed.

Lemma has_speech_monotone_witness :
  let self := add_chunk 0 loud default in
  (forall now audio_bytes,
      has_speech (add_chunk now audio_bytes self) = true) /\
  (forall o,
      has_speech (step pydub_undecodable o self) = false ->
      o = OpClear \/ o = OpGetAudioAndReset) /\
  has_speech (clear self) = false.
Proof.
  apply (has_speech_monotone pydub_undecodable (add_chunk 0 loud default)).
  vm_compute. reflexivity.
Defined.

End VADFacts.



(** ** Properties of AudioBuffer *)

Module AudioFacts.
Import AudioBuffer.

(** [get_audio] never assigns to [self]. *)
Lemma get_audio_state pydub self :
  Method.state_after (get_audio pydub self) = self.
Proof.
  unfold get_audio, Method.bind, Method.try_except, Method.get,
    Method.call_from_file, Method.call_export, Method.ret, Method.state_after.
  destruct (chunks self) as [|c cs]; cbn; [reflexivity|].
  destruct (from_file pydub _ (Some "webm")) as [a|e]; cbn.
  - destruct (export pydub a "wav"); reflexivity.
  - destruct (from_file pydub _ None) as [a|e']; cbn; [|reflexivity].
    destruct (export pydub a "wav"); reflexivity.
Qed.

Lemma get_audio_empty pydub self :
  chunks self = [] -> get_audio pydub self = (Ok [], self, []).
Proof.
  intros E. unfold get_audio, Method.bind, Method.get, Method.ret.
  rewrite E. reflexivity.
Qed.

(** One run of [get_audio] on a non-empty buffer, case by case. *)
Lemma get_audio_run pydub self :
  chunks self <> [] ->
  get_audio pydub self =
  let combined := join (chunks self) in
  match from_file pydub combined (Some "webm") with
  | Ok a =>
      (Ok (export_or_raw pydub a combined), self,
       [EvFromFile combined (Some "webm"); EvExport a "wav"])
  | Raised _ =>
      match from_file pydub combined None with
      | Ok a =>
          (Ok (export_or_raw pydub a combined), self,
           [EvFromFile combined (Some "webm"); EvFromFile combined None;
            EvExport a "wav"])
      | Raised _ =>
          (Ok combined, self,
           [EvFromFile combined (Some "webm"); EvFromFile combined None])
      end
  end.
Proof.
  destruct self as [cd md ch td]; cbn [chunks]. intros Hn.
  destruct ch as [|c cs]; [congruence|].
  unfold get_audio, export_or_raw, Method.bind, Method.try_except, Method.get,
    Method.call_from_file, Method.call_export, Method.ret.
  cbn [is_empty chunks].
  destruct (from_file pydub (join (c :: cs)) (Some "webm")) as [a|e].
  - destruct (export pydub a "wav"); reflexivity.
  - destruct (from_file pydub (join (c :: cs)) None) as [a|e'];
      [destruct (export pydub a "wav")|]; reflexivity.
Qed.

Lemma get_audio_contract pydub self :
  chunks self <> [] ->
  assembly_contract pydub (join (chunks self)) (get_audio pydub self).
Proof.
  intros Hn. rewrite (get_audio_run pydub self Hn). cbv zeta.
  unfold assembly_contract, Method.outcome, Method.calls.
  destruct (from_file pydub (join (chunks self)) (Some "webm")) as [a|e];
    [|destruct (from_file pydub (join (chunks self)) None) as [a|e']];
    cbn; contract_case.
Qed.

(** With an empty fragment list a reachable buffer has no duration either. *)
Lemma reachable_empty_no_duration pydub self :
  reachable pydub self -> chunks self = [] -> total_duration self = 0.
Proof.
  induction 1 as [|o self R IH]; [reflexivity|].
  destruct o; cbn [step]; auto.
  - cbn. intros E. apply app_eq_nil in E. destruct E; discriminate.
  - now rewrite get_audio_state.
Qed.

(** C6, as stated, fails: [get_audio] returns the assembled bytes and leaves
    the fragment in the buffer, where the next call reads it again. *)
Lemma get_audio_reads_twice :
  let self := add loud default in
  let first := get_audio pydub_undecodable self in
  let second := get_audio pydub_undecodable (Method.state_after first) in
  Method.outcome first = Ok loud /\
  get_chunk_count (Method.state_after first) = 1%Z /\
  Method.outcome second = Ok loud.
Proof. vm_compute. auto. Qed.

(** C6, amended: [get_audio] assembles all buffered fragments and leaves the
    buffer as it was; the separate [clear] empties the fragments and the
    accumulated duration, and [get_audio] after it returns the empty byte
    string. *)
Theorem get_audio_reads_clear_resets :
  forall (pydub : Pydub) (self : t),
    Method.state_after (get_audio pydub self) = self /\
    (chunks self <> [] ->
     assembly_contract pydub (join (chunks self)) (get_audio pydub self)) /\
    chunks (clear self) = [] /\
    total_duration (clear self) = 0 /\
    get_audio pydub (clear self) = (Ok [], clear self, []).
Proof.
  intros pydub self.
  split; [apply get_audio_state|].
  split; [apply get_audio_contract|].
  split; [reflexivity|]. split; [reflexivity|].
  now apply get_audio_empty.
Qed.

Lemma get_audio_reads_clear_resets_witness :
  let self := add loud default in
  Method.state_after (get_audio pydub_undecodable self) = self /\
  (chunks self <> [] ->
   assembly_contract pydub_undecodable (join (chunks self))
     (get_audio pydub_undecodable self)) /\
  chunks (clear self) = [] /\
  total_duration (clear self) = 0 /\
  get_audio pydub_undecodable (clear self) = (Ok [], clear self, []).
Proof.
  apply (get_audio_reads_clear_resets pydub_undecodable (add loud default)).
Defined.

End AudioFacts.

(** ** Properties of assembly and of validate_format *)

Lemma get_audio_and_reset_empty pydub (self : VADBuffer.t) :
  VADBuffer.chunks self = [] ->
  VADBuffer.get_audio_and_reset pydub self = (Ok [], self, []).
Proof.
  intros E.
  unfold VADBuffer.get_audio_and_reset, Method.bind, Method.get, Method.ret.
  rewrite E. reflexivity.
Qed.

(** One run of [get_audio_and_reset] on a non-empty buffer, case by case. *)
Lemma get_audio_and_reset_run pydub (self : VADBuffer.t) :
  VADBuffer.chunks self <> [] ->
  VADBuffer.get_audio_and_reset pydub self =
  let combined := join (VADBuffer.chunks self) in
  match from_file pydub combined (Some "webm") with
  | Ok a =>
      (Ok (export_or_raw pydub a combined), VADBuffer.clear self,
       [EvFromFile combined (Some "webm"); EvExport a "wav"])
  | Raised _ =>
      match from_file pydub combined None with
      | Ok a =>
          (Ok (export_or_raw pydub a combined), VADBuffer.clear self,
           [EvFromFile combined (Some "webm"); EvFromFile combined None;
            EvExport a "wav"])
      | Raised _ =>
          (Ok combined, VADBuffer.clear self,
           [EvFromFile combined (Some "webm"); EvFromFile combined None])
      end
  end.
Proof.
  destruct self as [thr maxd rms rate ch tb st hs]; cbn [VADBuffer.chunks].
  intros Hn. destruct ch as [|c cs]; [congruence|].
  unfold VADBuffer.get_audio_and_reset, export_or_raw, Method.bind,
    Method.try_except, Method.get, Method.call_from_file, Method.call_export,
    Method.modify, Method.ret.
  cbn [is_empty VADBuffer.chunks].
  destruct (from_file pydub (join (c :: cs)) (Some "webm")) as [a|e].
  - destruct (export pydub a "wav"); reflexivity.
  - destruct (from_file pydub (join (c :: cs)) None) as [a|e'];
      [destruct (export pydub a "wav")|]; reflexivity.
Qed.

Lemma get_audio_and_reset_contract pydub (self : VADBuffer.t) :
  VADBuffer.chunks self <> [] ->
  assembly_contract pydub (join (VADBuffer.chunks self))
    (VADBuffer.get_audio_and_reset pydub self).
Proof.
  intros Hn. rewrite (get_audio_and_reset_run pydub self Hn). cbv zeta.
  unfold assembly_contract, Method.outcome, Method.calls.
  destruct (from_file pydub (join (VADBuffer.chunks self)) (Some "webm"))
    as [a|e];
    [|destruct (from_file pydub (join (VADBuffer.chunks self)) None)
        as [a|e']];
    cbn; contract_case.
Qed.

(** C7: on a non-empty buffer, [VADBuffer.get_audio_and_reset] and
    [AudioBuffer.get_audio] return (no exception reaches the caller); the
    first decode is of the whole concatenation as webm, automatic detection is
    tried when that raised, and when both raised the result is the raw
    concatenation of the buffered fragments. *)
Theorem assembly_never_raises :
  forall (pydub : Pydub) (vad : VADBuffer.t) (ab : AudioBuffer.t),
    VADBuffer.chunks vad <> [] ->
    AudioBuffer.chunks ab <> [] ->
    assembly_contract pydub (join (VADBuffer.chunks vad))
      (VADBuffer.get_audio_and_reset pydub vad) /\
    assembly_contract pydub (join (AudioBuffer.chunks ab))
      (AudioBuffer.get_audio pydub ab).
Proof.
  intros pydub vad ab Hv Ha. split.
  - apply get_audio_and_reset_contract, Hv.
  - apply AudioFacts.get_audio_contract, Ha.
Qed.

Lemma assembly_never_raises_witness :
  let vad := VADBuffer.add_chunk 0 loud VADBuffer.default in
  let ab := AudioBuffer.add loud (AudioBuffer.add (zeros 2) AudioBuffer.default) in
  assembly_contract pydub_undecodable (join (VADBuffer.chunks vad))
    (VADBuffer.get_audio_and_reset pydub_undecodable vad) /\
  assembly_contract pydub_undecodable (join (AudioBuffer.chunks ab))
    (AudioBuffer.get_audio pydub_undecodable ab).
Proof.
  apply (assembly_never_raises pydub_undecodable
           (VADBuffer.add_chunk 0 loud VADBuffer.default)
           (AudioBuffer.add loud (AudioBuffer.add (zeros 2) AudioBuffer.default)));
    vm_compute; discriminate.
Defined.

(** C10: on a buffer holding no fragment, [VADBuffer.get_audio_and_reset]
    and [AudioBuffer.get_audio] return the empty byte string, make no pydub
    call, and leave the object as it was, with no fragment; for an object
    reached through its methods that is the state [clear] produces. *)
Theorem empty_buffer_returns_empty :
  forall (pydub : Pydub) (vad : VADBuffer.t) (ab : AudioBuffer.t),
    VADBuffer.chunks vad = [] ->
    AudioBuffer.chunks ab = [] ->
    VADBuffer.get_audio_and_reset pydub vad = (Ok [], vad, []) /\
    AudioBuffer.get_audio pydub ab = (Ok [], ab, []) /\
    VADBuffer.get_chunk_count vad = 0%Z /\
    AudioBuffer.get_chunk_count ab = 0%Z /\
    (VADBuffer.reachable pydub vad -> vad = VADBuffer.clear vad) /\
    (AudioBuffer.reachable pydub ab -> ab = AudioBuffer.clear ab).
Proof.
  intros pydub vad ab Hv Ha.
  split; [apply get_audio_and_reset_empty, Hv|].
  split; [apply AudioFacts.get_audio_empty, Ha|].
  split; [unfold VADBuffer.get_chunk_count; now rewrite Hv|].
  split; [unfold AudioBuffer.get_chunk_count; now rewrite Ha|].
  split.
  - intros R.
    destruct (VADFacts.reachable_empty_idle pydub vad R Hv) as (H1 & H2 & H3).
    clear R. destruct vad as [thr maxd rms rate ch tb st hs]; cbn in *.
    subst. reflexivity.
  - intros R.
    pose proof (AudioFacts.reachable_empty_no_duration pydub ab R Ha) as H1.
    clear R. destruct ab as [cd md ch td]; cbn in *.
    subst. reflexivity.
Qed.

Lemma empty_buffer_returns_empty_witness :
  let vad := VADBuffer.clear (VADBuffer.add_chunk 0 loud VADBuffer.default) in
  let ab := AudioBuffer.default in
  VADBuffer.get_audio_and_reset pydub_flac vad = (Ok [], vad, []) /\
  AudioBuffer.get_audio pydub_flac ab = (Ok [], ab, []) /\
  VADBuffer.get_chunk_count vad = 0%Z /\
  AudioBuffer.get_chunk_count ab = 0%Z /\
  (VADBuffer.reachable pydub_flac vad -> vad = VADBuffer.clear vad) /\
  (AudioBuffer.reachable pydub_flac ab -> ab = AudioBuffer.clear ab).
Proof.
  apply (empty_buffer_returns_empty pydub_flac
           (VADBuffer.clear (VADBuffer.add_chunk 0 loud VADBuffer.default))
           AudioBuffer.default); reflexivity.
Defined.

(** [validate_format] makes one pydub call, with automatic detection, and
    answers whether it returned; its second argument plays no part. *)
Lemma validate_format_run pydub audio_bytes allowed_formats :
  AudioValidator.validate_format pydub audio_bytes allowed_formats tt =
  (Ok (is_ok (from_file pydub audio_bytes None)), tt,
   [EvFromFile audio_bytes None]).
Proof.
  unfold AudioValidator.validate_format, Method.bind, Method.try_except,
    Method.call_from_file, Method.ret.
  destruct (from_file pydub audio_bytes None); reflexivity.
Qed.

(** C8: [validate_format] is to answer [True] exactly when the bytes decode
    under one of the allowed formats.  On a FLAC file with
    [allowed_formats = ['wav']] the code answers [True], although the file
    decodes under no allowed format: the list is never consulted. *)
Theorem validate_format_ignores_allowed_formats :
  Method.outcome
    (AudioValidator.validate_format pydub_flac flac_file (Some ["wav"]) tt)
  = Ok true /\
  decodes_under_allowed pydub_flac flac_file ["wav"] = false /\
  Method.calls
    (AudioValidator.validate_format pydub_flac flac_file (Some ["wav"]) tt)
  = [EvFromFile flac_file None].
Proof. vm_compute. auto. Qed.

(** ** Further properties of VADBuffer *)

Module VADMore.
Import VADBuffer.

Lemma add_chunk_chunks now b self :
  chunks (add_chunk now b self) = (chunks self ++ [b])%list.
Proof.
  rewrite VADFacts.add_chunk_unfold.
  destruct (_is_silence self b); [destruct (silence_start_time self)|];
    reflexivity.
Qed.

Lemma add_chunk_total_bytes now b self :
  total_bytes (add_chunk now b self) = (total_bytes self + len b)%Z.
Proof.
  rewrite VADFacts.add_chunk_unfold.
  destruct (_is_silence self b); [destruct (silence_start_time self)|];
    reflexivity.
Qed.

Lemma add_chunk_max_duration_s now b self :
  max_duration_s (add_chunk now b self) = max_duration_s self.
Proof. apply VADFacts.add_chunk_config. Qed.


Lemma len_nonneg {A} (l : list A) : (0 <= len l)%Z.
Proof. unfold len. lia. Qed.

Lemma step_get_audio_and_reset pydub self :
  step pydub OpGetAudioAndReset self = self \/
  step pydub OpGetAudioAndReset self = clear self.
Proof.
  cbn [step]. rewrite VADFacts.get_audio_and_reset_state.
  destruct (is_empty (chunks self)); auto.
Qed.

Lemma step_threshold pydub o self :
  rms_silence_threshold (step pydub o self) = rms_silence_threshold self.
Proof.
  destruct o; cbn [step]; try reflexivity.
  - apply VADFacts.add_chunk_config.
  - destruct (step_get_audio_and_reset pydub self) as [E|E];
      cbn [step] in E; rewrite E; reflexivity.
Qed.



Lemma existsb_voiced_threshold self self' (l : list bytes) :
  rms_silence_threshold self' = rms_silence_threshold self ->
  existsb (fun b => negb (_is_silence self' b)) l =
  existsb (fun b => negb (_is_silence self b)) l.
Proof.
  intros E. induction l as [|c l IH]; [reflexivity|]. cbn [existsb].
  now rewrite IH, (VADFacts._is_silence_threshold self self' c E).
Qed.

(** [has_speech] tells whether the buffer holds a fragment that classifies
    as non-silence: in every reachable state the flag is true exactly when
    some buffered fragment is not silence. *)
Theorem has_speech_reflects_buffer :
  forall (pydub : Pydub) (self : t),
    reachable pydub self ->
    has_speech self =
    existsb (fun b => negb (_is_silence self b)) (chunks self).
Proof.
  intros pydub self R.
  induction R as [|o self R IH]; [reflexivity|].
  pose proof (fun s => existsb_voiced_threshold self s (chunks self)) as T.
  destruct o; cbn [step]; auto.
  - rewrite add_chunk_chunks, existsb_app.
    rewrite (T _ (proj2 (proj2 (VADFacts.add_chunk_config now audio_bytes self)))).
    rewrite <- IH. cbn [existsb]. rewrite VADFacts._is_silence_add_chunk.
    destruct (_is_silence self audio_bytes) eqn:Hs.
    + destruct (VADFacts.add_chunk_silent now _ _ Hs) as [-> _].
      cbn. now rewrite orb_false_r.
    + destruct (VADFacts.add_chunk_voiced now _ _ Hs) as [-> _].
      cbn. now rewrite orb_true_r.
  - destruct (step_get_audio_and_reset pydub self) as [E|E];
      cbn [step] in E; rewrite E; [exact IH|reflexivity].
Qed.

Lemma has_speech_reflects_buffer_witness :
  let self := add_chunk 1 (zeros 4) (add_chunk 0 loud default) in
  has_speech self =
  existsb (fun b => negb (_is_silence self b)) (chunks self).
Proof.
  apply (has_speech_reflects_buffer pydub_undecodable).
  apply (reach_step pydub_undecodable (OpAddChunk 1 (zeros 4))).
  apply (reach_step pydub_undecodable (OpAddChunk 0 loud)).
  apply reach_init.
Defined.

(** A silence run is open exactly when the newest fragment is silence: in
    every reachable state [silence_start_time] is [None] when the buffer is
    empty or its last fragment classified as non-silence, and set
    otherwise. *)
Theorem silence_start_tracks_last_fragment :
  forall (pydub : Pydub) (self : t),
    reachable pydub self ->
    match silence_start_time self with None => true | Some _ => false end =
    match rev (chunks self) with
    | [] => true
    | b :: _ => negb (_is_silence self b)
    end.
Proof.
  intros pydub self R.
  induction R as [|o self R IH]; [reflexivity|].
  destruct o; cbn [step]; auto.
  - rewrite add_chunk_chunks, rev_unit, VADFacts._is_silence_add_chunk.
    destruct (_is_silence self audio_bytes) eqn:Hs.
    + destruct (VADFacts.add_chunk_silent now _ _ Hs) as [_ ->].
      now destruct (silence_start_time self).
    + destruct (VADFacts.add_chunk_voiced now _ _ Hs) as [_ ->]. reflexivity.
  - destruct (step_get_audio_and_reset pydub self) as [E|E];
      cbn [step] in E; rewrite E; [exact IH|reflexivity].
Qed.

Lemma silence_start_tracks_last_fragment_witness :
  let self := add_chunk 1 (zeros 4) (add_chunk 0 loud default) in
  match silence_start_time self with None => true | Some _ => false end =
  match rev (chunks self) with
  | [] => true
  | b :: _ => negb (_is_silence self b)
  end.
Proof.
  apply (silence_start_tracks_last_fragment pydub_undecodable).
  apply (reach_step pydub_undecodable (OpAddChunk 1 (zeros 4))).
  apply (reach_step pydub_undecodable (OpAddChunk 0 loud)).
  apply reach_init.
Defined.

(** [should_trigger] is monotone in time: with the buffer untouched, an
    answer [True] at one clock reading is [True] at every later reading. *)
Theorem should_trigger_stays_true :
  forall (self : t) (now later : Q),
    now <= later ->
    should_trigger now self = true ->
    should_trigger later self = true.
Proof.
  intros self now later Hle. unfold should_trigger.
  destruct (has_speech self); cbn [negb]; [|discriminate].
  destruct (silence_start_time self) as [start|]; [|auto].
  destruct (Qle_bool (inject_Z (silence_threshold_ms self))
              ((now - start) * 1000)) eqn:Hnow; [intros _|].
  - replace (Qle_bool (inject_Z (silence_threshold_ms self))
               ((later - start) * 1000)) with true; [reflexivity|].
    symmetry. apply Qle_bool_iff. apply Qle_bool_iff in Hnow. lra.
  - intros H.
    destruct (Qle_bool (max_duration_s self)
                (inject_Z (total_bytes self) / 3200)); [|discriminate].
    now destruct (Qle_bool _ ((later - start) * 1000)).
Qed.

Lemma should_trigger_stays_true_witness :
  should_trigger 5
    (add_chunk (1 # 2) (zeros 4) (add_chunk 0 loud default)) = true.
Proof.
  apply (should_trigger_stays_true _ 2 5).
  - vm_compute. discriminate.
  - vm_compute. reflexivity.
Defined.

(** A fragment that classifies as non-silence cancels a pending silence
    trigger: right after it, [should_trigger] is the duration test of the
    code alone, [total_bytes / 3200.0 >= max_duration_s] in float
    arithmetic, at every clock reading. *)
Theorem voiced_fragment_leaves_backstop_only :
  forall (self : t) (now : Q) (audio_bytes : bytes) (t : Q),
    _is_silence self audio_bytes = false ->
    VADFloat.should_trigger t (add_chunk now audio_bytes self) =
    Qle_bool (max_duration_s self)
      (VADFloat.get_duration (add_chunk now audio_bytes self)).
Proof.
  intros self now b t Hv.
  destruct (VADFacts.add_chunk_voiced now b self Hv) as [Hs Ht].
  unfold VADFloat.should_trigger.
  rewrite Hs, Ht, add_chunk_max_duration_s.
  cbn [negb]. now destruct (Qle_bool _ _).
Qed.

Lemma voiced_fragment_leaves_backstop_only_witness :
  VADFloat.should_trigger 100
    (add_chunk 3 loud (add_chunk 1 (zeros 4) (add_chunk 0 loud default))) =
  Qle_bool (max_duration_s (add_chunk 1 (zeros 4) (add_chunk 0 loud default)))
    (VADFloat.get_duration
       (add_chunk 3 loud (add_chunk 1 (zeros 4) (add_chunk 0 loud default)))).
Proof.
  apply voiced_fragment_leaves_backstop_only. vm_compute. reflexivity.
Defined.

(** The duration test where rounding decides: with [max_duration_s] the
    double [0.1] and 320 voiced bytes buffered, [320 / 3200.0] rounds to
    that same double and the code triggers, although the exact quotient
    [1/10] is below it. *)
Example rounded_duration_test_at_the_boundary :
  let tenth := 3602879701896397 # 36028797018963968 in
  let self := add_chunk 0 (repeat x7f 320) (init 1000 tenth (1 # 100) 16000) in
  has_speech self = true /\
  Qle_bool tenth (inject_Z (total_bytes self) / 3200) = false /\
  VADFloat.should_trigger 0 self = true.
Proof. vm_compute. auto. Qed.

Lemma add_chunks_total_bytes_le frags self :
  (total_bytes self <= total_bytes (add_chunks frags self))%Z.
Proof.
  revert self; induction frags as [|f frags IH]; intros self; cbn; [lia|].
  etransitivity; [|apply IH]. rewrite add_chunk_total_bytes.
  pose proof (len_nonneg (fst f)). lia.
Qed.

Lemma add_chunks_max_duration_s frags self :
  max_duration_s (add_chunks frags self) = max_duration_s self.
Proof.
  revert self; induction frags as [|f frags IH]; intros self; cbn; [reflexivity|].
  rewrite IH. apply add_chunk_max_duration_s.
Qed.

(** The duration backstop cannot be cancelled by more audio: once speech
    was seen and the estimated duration has reached [max_duration_s],
    [should_trigger] is [True] after any further fragments, at any time,
    until the buffer is reset. *)
Theorem backstop_survives_more_audio :
  forall (self : t) (frags : list fragment) (t : Q),
    has_speech self = true ->
    max_duration_s self <= get_duration self ->
    should_trigger t (add_chunks frags self) = true.
Proof.
  intros self frags t Hs Hd. unfold should_trigger.
  rewrite (VADFacts.has_speech_add_chunks frags self Hs); cbn [negb].
  replace (Qle_bool (max_duration_s (add_chunks frags self))
             (inject_Z (total_bytes (add_chunks frags self)) / 3200))
    with true.
  - now destruct (silence_start_time _) as [start|];
      [destruct (Qle_bool _ ((t - start) * 1000))|].
  - symmetry. apply Qle_bool_iff. rewrite add_chunks_max_duration_s.
    unfold get_duration in Hd.
    pose proof (add_chunks_total_bytes_le frags self) as Hle.
    eapply Qle_trans; [exact Hd|].
    unfold Qdiv. apply Qmult_le_compat_r; [|discriminate].
    rewrite <- Zle_Qle. exact Hle.
Qed.

Lemma backstop_survives_more_audio_witness :
  should_trigger 9
    (add_chunks [(zeros 2, 1); (loud, 2)]
       (add_chunk 0 loud (init 1000 (1 # 1000) (1 # 100) 16000))) = true.
Proof.
  apply backstop_survives_more_audio.
  - vm_compute. reflexivity.
  - vm_compute. discriminate.
Defined.

(** A second [get_audio_and_reset] in a row delivers nothing: it returns
    the empty byte string and makes no pydub call, whatever state the first
    call started from and whatever the decoder did. *)
Theorem second_reset_delivers_nothing :
  forall (pydub : Pydub) (self : t),
    let self' := Method.state_after (get_audio_and_reset pydub self) in
    get_audio_and_reset pydub self' = (Ok [], self', []).
Proof.
  intros pydub self self'. apply get_audio_and_reset_empty.
  unfold self'. rewrite VADFacts.get_audio_and_reset_state.
  destruct (chunks self) eqn:E; cbn [is_empty]; [exact E|reflexivity].
Qed.

Lemma add_chunks_chunks frags self :
  chunks (add_chunks frags self) = (chunks self ++ map fst frags)%list.
Proof.
  revert self; induction frags as [|f frags IH]; intros self; cbn.
  - now rewrite app_nil_r.
  - rewrite IH, add_chunk_chunks, <- app_assoc. reflexivity.
Qed.

(** Fragments are assembled in arrival order: on a fresh buffer fed the
    fragments [frags], the buffer holds exactly these fragments, in order,
    and [get_audio_and_reset] decodes, or falls back to, their
    concatenation in that order. *)
Theorem assembly_in_arrival_order :
  forall (pydub : Pydub) (self0 : t) (frags : list fragment),
    fresh self0 ->
    frags <> [] ->
    chunks (add_chunks frags self0) = map fst frags /\
    get_chunk_count (add_chunks frags self0) = len frags /\
    assembly_contract pydub (join (map fst frags))
      (get_audio_and_reset pydub (add_chunks frags self0)).
Proof.
  intros pydub self0 frags Hf Hn.
  assert (E : chunks (add_chunks frags self0) = map fst frags).
  { rewrite add_chunks_chunks. now destruct Hf. }
  split; [exact E|]. split.
  - unfold get_chunk_count, len. now rewrite E, length_map.
  - rewrite <- E. apply get_audio_and_reset_contract.
    rewrite E. destruct frags; [congruence|discriminate].
Qed.

Lemma assembly_in_arrival_order_witness :
  let frags := [(loud, 0); (zeros 2, 1)] in
  chunks (add_chunks frags default) = map fst frags /\
  get_chunk_count (add_chunks frags default) = len frags /\
  assembly_contract pydub_undecodable (join (map fst frags))
    (get_audio_and_reset pydub_undecodable (add_chunks frags default)).
Proof.
  apply (assembly_in_arrival_order pydub_undecodable default
           [(loud, 0); (zeros 2, 1)]).
  - apply fresh_init.
  - discriminate.
Defined.

End VADMore.

(** ** Further properties of AudioBuffer *)

Module AudioMore.
Import AudioBuffer.

Lemma Qdiv_3200 (x : Q) : x / 3200 == x * (1 # 3200).
Proof. reflexivity. Qed.

Lemma add_total_duration_le b self :
  total_duration self <= total_duration (add b self).
Proof.
  cbn. rewrite Qdiv_3200.
  assert (0 <= inject_Z (len b)).
  { change 0 with (inject_Z 0). rewrite <- Zle_Qle. apply VADMore.len_nonneg. }
  lra.
Qed.

(** Adding audio never takes readiness away: a buffer that [is_ready]
    (or [is_full]) still is after any [add]. *)
Theorem readiness_survives_add :
  forall (self : t) (audio_data : bytes),
    (is_ready self = true -> is_ready (add audio_data self) = true) /\
    (is_full self = true -> is_full (add audio_data self) = true).
Proof.
  intros self b. pose proof (add_total_duration_le b self) as Hle.
  unfold is_ready, is_full. rewrite !Qle_bool_iff.
  change (chunk_duration (add b self)) with (chunk_duration self).
  change (max_duration (add b self)) with (max_duration self).
  split; intros H; lra.
Qed.

Lemma readiness_survives_add_witness :
  let self := add loud (init (1 # 3200) (1 # 1000)) in
  (is_ready self = true -> is_ready (add (zeros 2) self) = true) /\
  (is_full self = true -> is_full (add (zeros 2) self) = true).
Proof.
  apply (readiness_survives_add (add loud (init (1 # 3200) (1 # 1000)))
           (zeros 2)).
Defined.

(** A full buffer is a ready one, when the configured [chunk_duration] does
    not exceed [max_duration] (as with the defaults 3 and 60). *)
Theorem full_implies_ready :
  forall (self : t),
    chunk_duration self <= max_duration self ->
    is_full self = true ->
    is_ready self = true.
Proof.
  intros self Hc. unfold is_ready, is_full. rewrite !Qle_bool_iff.
  intros H. lra.
Qed.

Lemma full_implies_ready_witness :
  is_ready (add loud (init (1 # 3200) (1 # 1000))) = true.
Proof.
  apply full_implies_ready.
  - vm_compute. discriminate.
  - vm_compute. reflexivity.
Defined.

End AudioMore.

(** ** Properties of is_valid_audio *)

Module ValidatorFacts.
Import AudioValidator.

(** Truncation toward zero against a non-negative integer bound. *)
Lemma int_of_float_le (x : Q) (n : Z) :
  (0 <= n)%Z ->
  ((int_of_float x <= n)%Z <-> x < inject_Z n + 1).
Proof.
  intros Hn. destruct x as [p q]. unfold int_of_float, Qlt. cbn.
  rewrite !Z.mul_1_r.
  pose proof (Pos2Z.is_pos q) as Hq.
  destruct (Z.le_gt_cases 0 p) as [Hp|Hp].
  - rewrite Z.quot_div_nonneg by lia.
    pose proof (Z.div_mod p (Z.pos q)) as Hdm.
    pose proof (Z.mod_pos_bound p (Z.pos q) Hq) as Hm.
    split; intros H; nia.
  - assert (Z.quot p (Z.pos q) <= 0)%Z.
    { rewrite <- (Z.opp_involutive p), Z.quot_opp_l by lia.
      pose proof (Z.quot_pos (- p) (Z.pos q)). lia. }
    split; intros _; [nia|lia].
Qed.

Lemma is_valid_audio_iff (b : bytes) (d : Q) :
  is_valid_audio b d = true <->
  b <> [] /\ d * 3200 < inject_Z (len b) + 1.
Proof.
  unfold is_valid_audio.
  destruct b as [|x b]; cbn [is_empty orb].
  - split; [discriminate|]. intros [H _]. congruence.
  - replace (len (x :: b) =? 0)%Z with false
      by (symmetry; apply Z.eqb_neq; unfold len; cbn [List.length]; lia).
    rewrite Z.leb_le, int_of_float_le by apply VADMore.len_nonneg.
    split; [intros H; split; [discriminate|exact H]|intros [_ H]; exact H].
Qed.

(** With the default [min_duration = 0.1] the limit is 320 bytes. *)
Theorem is_valid_audio_default :
  forall (audio_bytes : bytes),
    is_valid_audio audio_bytes default_min_duration = true <->
    (320 <= len audio_bytes)%Z.
Proof.
  intros b. rewrite is_valid_audio_iff.
  unfold default_min_duration.
  assert (E : (1 # 10) * 3200 == inject_Z 320) by reflexivity.
  rewrite E. change 1 with (inject_Z 1). rewrite <- inject_Z_plus, <- Zlt_Qlt.
  split.
  - intros [_ H]. lia.
  - intros H. split; [|lia].
    intros ->. unfold len in H. cbn in H. lia.
Qed.

Lemma is_valid_audio_default_witness :
  is_valid_audio (zeros 320) default_min_duration = true <->
  (320 <= len (zeros 320))%Z.
Proof. apply (is_valid_audio_default (zeros 320)). Defined.

(** Acceptance grows with the fragment and shrinks with the demand: a
    fragment at least as long as an accepted one is accepted, also for any
    smaller [min_duration], as long as both durations lie within
    [-2^1000, 2^1000], where the product with 3200 is a finite float and
    [int()] does not raise. *)
Theorem is_valid_audio_monotone :
  forall (b b' : bytes) (d d' : Q),
    - (2 ^ 1000) <= d' ->
    d <= 2 ^ 1000 ->
    (len b <= len b')%Z ->
    d' <= d ->
    is_valid_audio b d = true ->
    is_valid_audio b' d' = true.
Proof.
  intros b b' d d' _ _ Hl Hd. rewrite !is_valid_audio_iff.
  intros [Hn H]. split.
  - intros ->. destruct b as [|x b]; [congruence|].
    unfold len in Hl. cbn in Hl. lia.
  - assert (inject_Z (len b) <= inject_Z (len b'))
      by (rewrite <- Zle_Qle; exact Hl).
    lra.
Qed.

Lemma is_valid_audio_monotone_witness :
  is_valid_audio (zeros 4) (1 # 3200) = true.
Proof.
  apply (is_valid_audio_monotone (zeros 2) (zeros 4) (1 # 1600) (1 # 3200)).
  - vm_compute. discriminate.
  - vm_compute. discriminate.
  - vm_compute. discriminate.
  - vm_compute. discriminate.
  - vm_compute. reflexivity.
Defined.

End ValidatorFacts.

(** ** Properties of the energy classification *)

Module SilenceFacts.
Import VADBuffer.

Lemma np_frombuffer_int16_even_aux b :
  (Nat.even (List.length b) = true ->
   exists xs, np_frombuffer_int16 b = Ok xs /\
              List.length xs = Nat.div2 (List.length b)) /\
  (forall x, Nat.even (List.length (x :: b)) = true ->
   exists xs, np_frombuffer_int16 (x :: b) = Ok xs /\
              List.length xs = Nat.div2 (List.length (x :: b))).
Proof.
  induction b as [|a b [IH1 IH2]].
  - split; [intros _; exists []; auto|]. intros x H. discriminate H.
  - split; [apply IH2|]. intros x H.
    change (Nat.even (List.length (x :: a :: b)))
      with (Nat.even (List.length b)) in H.
    destruct (IH1 H) as (xs & E & L).
    exists (int16_of x a :: xs). cbn [np_frombuffer_int16]. rewrite E.
    split; [reflexivity|]. cbn. now rewrite L.
Qed.

(** The classification can read a fragment exactly when its length is
    even: then [np.frombuffer] yields one sample per two bytes, and on an
    odd length it raises. *)
Theorem samples_readable_iff_even :
  forall (b : bytes),
    (Nat.even (List.length b) = true ->
     exists xs, np_frombuffer_int16 b = Ok xs /\
                List.length xs = Nat.div2 (List.length b)) /\
    (Nat.even (List.length b) = false ->
     exists e, np_frombuffer_int16 b = Raised e).
Proof.
  intros b. split; [apply np_frombuffer_int16_even_aux|].
  intros H. apply VADFacts.np_frombuffer_int16_odd.
  unfold Nat.odd. now rewrite H.
Qed.

Lemma samples_readable_iff_even_witness :
  (Nat.even (List.length loud) = true ->
   exists xs, np_frombuffer_int16 loud = Ok xs /\
              List.length xs = Nat.div2 (List.length loud)) /\
  (Nat.even (List.length loud) = false ->
   exists e, np_frombuffer_int16 loud = Raised e).
Proof. apply (samples_readable_iff_even loud). Defined.

Lemma np_frombuffer_int16_no_samples b :
  np_frombuffer_int16 b = Ok [] -> b = [].
Proof.
  destruct b as [|x [|y r]]; cbn; [reflexivity|discriminate|].
  destruct (np_frombuffer_int16 r); discriminate.
Qed.

(** With a threshold of zero or below nothing but the empty fragment is
    silence: every non-empty fragment classifies as non-silence. *)
Theorem nonpositive_threshold_hears_everything :
  forall (self : t) (audio_bytes : bytes),
    rms_silence_threshold self <= 0 ->
    audio_bytes <> [] ->
    _is_silence self audio_bytes = false.
Proof.
  intros self b Hthr Hb. unfold _is_silence.
  destruct (np_frombuffer_int16 b) as [samples|e] eqn:E; [|reflexivity].
  destruct samples as [|x xs].
  - apply np_frombuffer_int16_no_samples in E. congruence.
  - replace (len (x :: xs) =? 0)%Z with false
      by (symmetry; apply Z.eqb_neq; unfold len; cbn [List.length]; lia).
    unfold sqrt_lt, Qlt_bool.
    apply Qle_bool_iff in Hthr. now rewrite Hthr.
Qed.

Lemma nonpositive_threshold_hears_everything_witness :
  _is_silence (init 1000 6 0 16000) (zeros 4) = false.
Proof.
  apply nonpositive_threshold_hears_everything.
  - vm_compute. discriminate.
  - discriminate.
Defined.

Lemma np_frombuffer_int16_zeros n :
  np_frombuffer_int16 (zeros (2 * n)) = Ok (repeat 0%Z n).
Proof.
  induction n as [|n IH]; [reflexivity|].
  replace (2 * S n)%nat with (S (S (2 * n))) by lia.
  unfold zeros in *. cbn [repeat np_frombuffer_int16]. rewrite IH.
  reflexivity.
Qed.

Lemma sum_zero_squares n :
  fold_left (fun acc x => Qred (acc + x))
    (map (fun x => x * x) (map (fun x => inject_Z x / 32768) (repeat 0%Z n))) 0
  = 0.
Proof.
  induction n as [|n IH]; [reflexivity|]. cbn [repeat map fold_left].
  exact IH.
Qed.

(** Digital silence is silence: a fragment of zero bytes of even length
    classifies as silence under every threshold of at least [2^-149], the
    smallest positive single-precision number (numpy compares the RMS with
    the threshold in single precision, where a smaller threshold is zero). *)
Theorem zero_samples_are_silence :
  forall (self : t) (n : nat),
    2 ^ (-149) <= rms_silence_threshold self ->
    _is_silence self (zeros (2 * n)) = true.
Proof.
  intros self n Hmin.
  assert (Hthr : 0 < rms_silence_threshold self).
  { eapply Qlt_le_trans; [|exact Hmin]. reflexivity. }
  unfold _is_silence.
  rewrite np_frombuffer_int16_zeros.
  destruct (len (repeat 0%Z n) =? 0)%Z eqn:El; [reflexivity|].
  unfold np_mean. rewrite sum_zero_squares.
  assert (E : Qred (0 / inject_Z (len (map (fun x => x * x)
                 (map (fun x => inject_Z x / 32768) (repeat 0%Z n))))) = 0).
  { change 0 with (Qred 0) at 2. apply Qred_complete.
    unfold Qdiv. ring. }
  rewrite E. unfold sqrt_lt, Qlt_bool.
  assert (H1 : Qle_bool (rms_silence_threshold self) 0 = false).
  { destruct (Qle_bool (rms_silence_threshold self) 0) eqn:H; [|reflexivity].
    apply Qle_bool_iff in H. lra. }
  assert (H2 : Qle_bool (rms_silence_threshold self
                         * rms_silence_threshold self) 0 = false).
  { destruct (Qle_bool (rms_silence_threshold self
                        * rms_silence_threshold self) 0) eqn:H; [|reflexivity].
    apply Qle_bool_iff in H. nra. }
  now rewrite H1, H2.
Qed.

Lemma zero_samples_are_silence_witness :
  _is_silence default (zeros (2 * 3)) = true.
Proof.
  apply zero_samples_are_silence. vm_compute. discriminate.
Defined.

End SilenceFacts.

(** ** Properties of convert_to_wav *)

Module ProcessorFacts.
Import AudioProcessor.

(** One run of [convert_to_wav]. *)
Lemma convert_to_wav_run pydub audio_bytes source_format :
  convert_to_wav pydub audio_bytes source_format tt =
  match from_file pydub audio_bytes (Some source_format) with
  | Ok a =>
      (export pydub a "wav", tt,
       [EvFromFile audio_bytes (Some source_format); EvExport a "wav"])
  | Raised e => (Raised e, tt, [EvFromFile audio_bytes (Some source_format)])
  end.
Proof.
  unfold convert_to_wav, Method.try_except, Method.bind,
    Method.call_from_file, Method.call_export, raise.
  destruct (from_file pydub audio_bytes (Some source_format)) as [a|e];
    [destruct (export pydub a "wav")|]; reflexivity.
Qed.

(** [convert_to_wav] hides nothing: it returns the exported bytes when both
    pydub calls return, and otherwise raises the very exception that the
    failing call raised; there is no fallback to another format. *)
Theorem convert_to_wav_reraises :
  forall (pydub : Pydub) (audio_bytes : bytes) (source_format : string),
    let run := convert_to_wav pydub audio_bytes source_format tt in
    (forall wav,
        Method.outcome run = Ok wav <->
        exists a, from_file pydub audio_bytes (Some source_format) = Ok a /\
                  export pydub a "wav" = Ok wav) /\
    (forall e,
        Method.outcome run = Raised e <->
        from_file pydub audio_bytes (Some source_format) = Raised e \/
        exists a, from_file pydub audio_bytes (Some source_format) = Ok a /\
                  export pydub a "wav" = Raised e) /\
    hd_error (Method.calls run) =
      Some (EvFromFile audio_bytes (Some source_format)) /\
    ~ In (EvFromFile audio_bytes None) (Method.calls run).
Proof.
  intros pydub b fmt run. unfold run. rewrite convert_to_wav_run.
  destruct (from_file pydub b (Some fmt)) as [a|e0]; cbn.
  - repeat split.
    + intros H. exists a. auto.
    + intros (a' & Ha & He). injection Ha as <-. exact He.
    + intros H. right. exists a. auto.
    + intros [H|(a' & Ha & He)]; [discriminate|].
      injection Ha as <-. exact He.
    + intros [H|[H|[]]]; discriminate.
  - repeat split.
    + discriminate.
    + intros (a' & Ha & _). discriminate.
    + intros H. left. injection H as ->. reflexivity.
    + intros [H|(a' & Ha & _)]; [|discriminate].
      injection H as ->. reflexivity.
    + intros [H|[]]; discriminate.
Qed.

Lemma convert_to_wav_reraises_witness :
  let run := convert_to_wav pydub_flac flac_file "flac" tt in
  (forall wav,
      Method.outcome run = Ok wav <->
      exists a, from_file pydub_flac flac_file (Some "flac") = Ok a /\
                export pydub_flac a "wav" = Ok wav) /\
  (forall e,
      Method.outcome run = Raised e <->
      from_file pydub_flac flac_file (Some "flac") = Raised e \/
      exists a, from_file pydub_flac flac_file (Some "flac") = Ok a /\
                export pydub_flac a "wav" = Raised e) /\
  hd_error (Method.calls run) = Some (EvFromFile flac_file (Some "flac")) /\
  ~ In (EvFromFile flac_file None) (Method.calls run).
Proof. apply (convert_to_wav_reraises pydub_flac flac_file "flac"). Defined.

(** Where [convert_to_wav] succeeds on the concatenation as webm, the
    buffers deliver the same bytes: on a non-empty buffer
    [AudioBuffer.get_audio] and [VADBuffer.get_audio_and_reset] return what
    [convert_to_wav(b''.join(chunks), "webm")] returns, when it returns. *)
Theorem buffers_agree_with_convert_to_wav :
  forall (pydub : Pydub) (ab : AudioBuffer.t) (vad : VADBuffer.t) (wav : bytes),
    AudioBuffer.chunks ab <> [] ->
    VADBuffer.chunks vad <> [] ->
    (Method.outcome
       (convert_to_wav pydub (join (AudioBuffer.chunks ab)) "webm" tt)
     = Ok wav ->
     Method.outcome (AudioBuffer.get_audio pydub ab) = Ok wav) /\
    (Method.outcome
       (convert_to_wav pydub (join (VADBuffer.chunks vad)) "webm" tt)
     = Ok wav ->
     Method.outcome (VADBuffer.get_audio_and_reset pydub vad) = Ok wav).
Proof.
  intros pydub ab vad wav Ha Hv. split; intros H.
  - rewrite convert_to_wav_run in H.
    rewrite (AudioFacts.get_audio_run pydub ab Ha). cbv zeta.
    destruct (from_file pydub (join (AudioBuffer.chunks ab)) (Some "webm"))
      as [a|e]; cbn in *; [|discriminate].
    unfold export_or_raw. now rewrite H.
  - rewrite convert_to_wav_run in H.
    rewrite (get_audio_and_reset_run pydub vad Hv). cbv zeta.
    destruct (from_file pydub (join (VADBuffer.chunks vad)) (Some "webm"))
      as [a|e]; cbn in *; [|discriminate].
    unfold export_or_raw. now rewrite H.
Qed.

Lemma buffers_agree_with_convert_to_wav_witness :
  let ab := AudioBuffer.add loud AudioBuffer.default in
  let vad := VADBuffer.add_chunk 0 loud VADBuffer.default in
  (Method.outcome
     (convert_to_wav pydub_lenient (join (AudioBuffer.chunks ab)) "webm" tt)
   = Ok loud ->
   Method.outcome (AudioBuffer.get_audio pydub_lenient ab) = Ok loud) /\
  (Method.outcome
     (convert_to_wav pydub_lenient (join (VADBuffer.chunks vad)) "webm" tt)
   = Ok loud ->
   Method.outcome (VADBuffer.get_audio_and_reset pydub_lenient vad) = Ok loud).
Proof.
  apply (buffers_agree_with_convert_to_wav pydub_lenient
           (AudioBuffer.add loud AudioBuffer.default)
           (VADBuffer.add_chunk 0 loud VADBuffer.default) loud);
    vm_compute; discriminate.
Defined.

End ProcessorFacts.

(** ** The base64 round trip *)

Module Base64Facts.
Import AudioProcessor.

Lemma forallb_upto (f : N -> bool) (n : nat) (x : N) :
  forallb f (upto n) = true -> (x < N.of_nat n)%N -> f x = true.
Proof.
  intros H Hx. rewrite forallb_forall in H. apply H.
  unfold upto. apply in_map_iff. exists (N.to_nat x).
  split; [apply N2Nat.id|]. apply in_seq. lia.
Qed.

Lemma forall2b_upto (f : N -> N -> bool) (n m : nat) (x y : N) :
  forall2b n m f = true ->
  (x < N.of_nat n)%N -> (y < N.of_nat m)%N -> f x y = true.
Proof.
  intros H Hx Hy. unfold forall2b in H.
  apply (forallb_upto (f x) m y); [|exact Hy].
  exact (forallb_upto _ n x H Hx).
Qed.

Lemma check_table_all : forallb check_table (upto 64) = true.
Proof. vm_compute. reflexivity. Qed.

Lemma check_byte1_all : forall2b 256 256 check_byte1 = true.
Proof. vm_compute. reflexivity. Qed.

Lemma check_byte1_tail_all : forallb check_byte1_tail (upto 256) = true.
Proof. vm_compute. reflexivity. Qed.

Lemma check_byte2_all :
  forallb (fun p => forall2b 4 256 (check_byte2 p)) (upto 4) = true.
Proof. vm_compute. reflexivity. Qed.

Lemma check_byte2_tail_all : forall2b 256 256 check_byte2_tail = true.
Proof. vm_compute. reflexivity. Qed.

Lemma check_byte3_all : forall2b 256 256 check_byte3 = true.
Proof. vm_compute. reflexivity. Qed.

Lemma to_N_lt (x : byte) : (Byte.to_N x < N.of_nat 256)%N.
Proof.
  pose proof (Byte.to_N_bounded x).
  change (N.of_nat 256) with 256%N. lia.
Qed.

Lemma byte_of_to_N (x : byte) : byte_of_N (Byte.to_N x) = x.
Proof.
  unfold byte_of_N. pose proof (Byte.to_N_bounded x).
  rewrite N.mod_small by lia. now rewrite Byte.of_to_N.
Qed.

Lemma b2a_facts (v : N) :
  (v < 64)%N ->
  a2b (b2a v) = Some v /\
  Ascii.eqb (b2a v) BASE64_PAD = false /\
  is_ascii (b2a v) = true.
Proof.
  intros Hv.
  pose proof (forallb_upto check_table 64 v check_table_all Hv) as H.
  unfold check_table in H.
  apply andb_true_iff in H. destruct H as [H H3].
  apply andb_true_iff in H. destruct H as [H1 H2].
  destruct (a2b (b2a v)) as [j|]; [|discriminate].
  apply N.eqb_eq in H1. subst j.
  apply negb_true_iff in H2. auto.
Qed.

(** One turn of the loop on the character of a 6-bit value. *)
Lemma loop_char (v : N) (rest : string) (quad_pos leftchar pads : N) :
  (v < 64)%N ->
  a2b_base64_loop (String (b2a v) rest) quad_pos leftchar pads =
  if (quad_pos =? 0)%N then a2b_base64_loop rest 1%N v 0%N
  else if (quad_pos =? 1)%N then
    emit (byte_of_N (N.lor (N.shiftl leftchar 2) (N.shiftr v 4)))
      (a2b_base64_loop rest 2%N (N.land v 15) 0%N)
  else if (quad_pos =? 2)%N then
    emit (byte_of_N (N.lor (N.shiftl leftchar 4) (N.shiftr v 2)))
      (a2b_base64_loop rest 3%N (N.land v 3) 0%N)
  else
    emit (byte_of_N (N.lor (N.shiftl leftchar 6) v))
      (a2b_base64_loop rest 0%N 0%N 0%N).
Proof.
  intros Hv. destruct (b2a_facts v Hv) as (Ha & Hp & _).
  cbn [a2b_base64_loop]. rewrite Hp, Ha. reflexivity.
Qed.

(** The facts the finite checks give about the bytes [x], [y], [z]. *)
Lemma byte1_facts (x y : byte) :
  let X := Byte.to_N x in
  let Y := Byte.to_N y in
  let v1 := N.shiftr X 2 in
  let v2 := N.lor (N.shiftl (N.land X 3) 4) (N.shiftr Y 4) in
  (v1 < 64)%N /\ (v2 < 64)%N /\
  N.lor (N.shiftl v1 2) (N.shiftr v2 4) = X.
Proof.
  intros X Y v1 v2.
  pose proof (forall2b_upto check_byte1 256 256 X Y check_byte1_all
                (to_N_lt x) (to_N_lt y)) as H.
  unfold check_byte1 in H. fold v1 v2 in H.
  rewrite !andb_true_iff, !N.ltb_lt, N.eqb_eq in H. tauto.
Qed.

Lemma byte1_tail_facts (x : byte) :
  let X := Byte.to_N x in
  let v1 := N.shiftr X 2 in
  let v2 := N.shiftl (N.land X 3) 4 in
  (v1 < 64)%N /\ (v2 < 64)%N /\
  N.lor (N.shiftl v1 2) (N.shiftr v2 4) = X /\
  (N.land X 3 < 4)%N /\ (N.shiftr X 6 < 4)%N.
Proof.
  intros X v1 v2.
  pose proof (forallb_upto check_byte1_tail 256 X check_byte1_tail_all
                (to_N_lt x)) as H.
  unfold check_byte1_tail in H. fold v1 v2 in H.
  rewrite !andb_true_iff, !N.ltb_lt, N.eqb_eq in H. tauto.
Qed.

Lemma byte2_facts (x y z : byte) :
  let X := Byte.to_N x in
  let Y := Byte.to_N y in
  let Z := Byte.to_N z in
  let v2 := N.lor (N.shiftl (N.land X 3) 4) (N.shiftr Y 4) in
  let v3 := N.lor (N.shiftl (N.land Y 15) 2) (N.shiftr Z 6) in
  N.lor (N.shiftl (N.land v2 15) 4) (N.shiftr v3 2) = Y.
Proof.
  intros X Y Z v2 v3.
  destruct (byte1_tail_facts x) as (_ & _ & _ & Hp & _).
  destruct (byte1_tail_facts z) as (_ & _ & _ & _ & Hq).
  pose proof (forallb_upto _ 4 (N.land X 3) check_byte2_all Hp) as H.
  cbv beta in H.
  pose proof (forall2b_upto _ 4 256 (N.shiftr Z 6) Y H Hq (to_N_lt y)) as H'.
  unfold check_byte2 in H'. apply N.eqb_eq in H'. exact H'.
Qed.

Lemma byte2_tail_facts (x y : byte) :
  let X := Byte.to_N x in
  let Y := Byte.to_N y in
  let v2 := N.lor (N.shiftl (N.land X 3) 4) (N.shiftr Y 4) in
  let v3 := N.shiftl (N.land Y 15) 2 in
  (v3 < 64)%N /\
  N.lor (N.shiftl (N.land v2 15) 4) (N.shiftr v3 2) = Y.
Proof.
  intros X Y v2 v3.
  pose proof (forall2b_upto check_byte2_tail 256 256 X Y check_byte2_tail_all
                (to_N_lt x) (to_N_lt y)) as H.
  unfold check_byte2_tail in H. fold v2 v3 in H.
  rewrite !andb_true_iff, !N.ltb_lt, N.eqb_eq in H. tauto.
Qed.

Lemma byte3_facts (y z : byte) :
  let Y := Byte.to_N y in
  let Z := Byte.to_N z in
  let v3 := N.lor (N.shiftl (N.land Y 15) 2) (N.shiftr Z 6) in
  let v4 := N.land Z 63 in
  (v3 < 64)%N /\ (v4 < 64)%N /\
  N.lor (N.shiftl (N.land v3 3) 6) v4 = Z.
Proof.
  intros Y Z v3 v4.
  pose proof (forall2b_upto check_byte3 256 256 Y Z check_byte3_all
                (to_N_lt y) (to_N_lt z)) as H.
  unfold check_byte3 in H. fold v3 v4 in H.
  rewrite !andb_true_iff, !N.ltb_lt, N.eqb_eq in H. tauto.
Qed.

(** The loop over the four characters of a full group gives back its three
    bytes and is again at a group boundary. *)
Lemma decode_group (x y z : byte) (rest : bytes) :
  a2b_base64_loop (b2a_base64 (x :: y :: z :: rest)) 0 0 0 =
  emit x (emit y (emit z (a2b_base64_loop (b2a_base64 rest) 0 0 0))).
Proof.
  cbn [b2a_base64]. cbv zeta.
  destruct (byte1_facts x y) as (H1 & H2 & E1).
  pose proof (byte2_facts x y z) as E2.
  destruct (byte3_facts y z) as (H3 & H4 & E3).
  cbv zeta in *.
  rewrite (loop_char _ _ 0 0 0 H1). cbn [N.eqb].
  rewrite (loop_char _ _ 1 _ 0 H2). cbn [N.eqb Pos.eqb].
  rewrite (loop_char _ _ 2 _ 0 H3). cbn [N.eqb Pos.eqb].
  rewrite (loop_char _ _ 3 _ 0 H4). cbn [N.eqb Pos.eqb].
  rewrite E1, E2, E3, !byte_of_to_N. reflexivity.
Qed.

Lemma decode_tail1 (x : byte) :
  a2b_base64_loop (b2a_base64 [x]) 0 0 0 = Ok [x].
Proof.
  cbn [b2a_base64]. cbv zeta.
  destruct (byte1_tail_facts x) as (H1 & H2 & E1 & _).
  cbv zeta in *.
  rewrite (loop_char _ _ 0 0 0 H1). cbn [N.eqb].
  rewrite (loop_char _ _ 1 _ 0 H2). cbn [N.eqb Pos.eqb].
  rewrite E1, byte_of_to_N. reflexivity.
Qed.

Lemma decode_tail2 (x y : byte) :
  a2b_base64_loop (b2a_base64 [x; y]) 0 0 0 = Ok [x; y].
Proof.
  cbn [b2a_base64]. cbv zeta.
  destruct (byte1_facts x y) as (H1 & H2 & E1).
  destruct (byte2_tail_facts x y) as (H3 & E2).
  cbv zeta in *.
  rewrite (loop_char _ _ 0 0 0 H1). cbn [N.eqb].
  rewrite (loop_char _ _ 1 _ 0 H2). cbn [N.eqb Pos.eqb].
  rewrite (loop_char _ _ 2 _ 0 H3). cbn [N.eqb Pos.eqb].
  rewrite E1, E2, !byte_of_to_N. reflexivity.
Qed.

Lemma list_ind3 {A} (P : list A -> Prop) :
  P [] ->
  (forall a, P [a]) ->
  (forall a b, P [a; b]) ->
  (forall a b c l, P l -> P (a :: b :: c :: l)) ->
  forall l, P l.
Proof.
  intros H0 H1 H2 H3 l.
  enough (P l /\ (forall a, P (a :: l)) /\ (forall a b, P (a :: b :: l)))
    by tauto.
  induction l as [|c l (I0 & I1 & I2)]; [auto|].
  repeat split; auto.
Qed.

Lemma a2b_b2a_base64 (data : bytes) :
  a2b_base64_loop (b2a_base64 data) 0 0 0 = Ok data.
Proof.
  induction data as [|x|x y|x y z rest IH] using list_ind3.
  - reflexivity.
  - apply decode_tail1.
  - apply decode_tail2.
  - rewrite decode_group, IH. reflexivity.
Qed.

Lemma all_ascii_b2a_base64 (data : bytes) :
  all_ascii (b2a_base64 data) = true.
Proof.
  induction data as [|x|x y|x y z rest IH] using list_ind3.
  - reflexivity.
  - destruct (byte1_tail_facts x) as (H1 & H2 & _).
    cbn [b2a_base64 all_ascii]. cbv zeta in *.
    rewrite (proj2 (proj2 (b2a_facts _ H1))), (proj2 (proj2 (b2a_facts _ H2))).
    reflexivity.
  - destruct (byte1_facts x y) as (H1 & H2 & _).
    destruct (byte2_tail_facts x y) as (H3 & _).
    cbn [b2a_base64 all_ascii]. cbv zeta in *.
    rewrite (proj2 (proj2 (b2a_facts _ H1))), (proj2 (proj2 (b2a_facts _ H2))),
      (proj2 (proj2 (b2a_facts _ H3))).
    reflexivity.
  - destruct (byte1_facts x y) as (H1 & H2 & _).
    destruct (byte3_facts y z) as (H3 & H4 & _).
    cbn [b2a_base64 all_ascii]. cbv zeta in *.
    rewrite (proj2 (proj2 (b2a_facts _ H1))), (proj2 (proj2 (b2a_facts _ H2))),
      (proj2 (proj2 (b2a_facts _ H3))), (proj2 (proj2 (b2a_facts _ H4))), IH.
    reflexivity.
Qed.

(** Round trip: decoding what [bytes_to_base64] produced gives the bytes
    back, for every byte string; no exception is raised. *)
Theorem base64_round_trip :
  forall (audio_bytes : bytes),
    base64_to_bytes (bytes_to_base64 audio_bytes) = Ok audio_bytes.
Proof.
  intros b. unfold base64_to_bytes, bytes_to_base64, b64decode, b64encode.
  now rewrite all_ascii_b2a_base64, a2b_b2a_base64.
Qed.

(** The encoded text is ASCII and has four characters for every three
    bytes begun. *)
Theorem bytes_to_base64_shape :
  forall (audio_bytes : bytes),
    all_ascii (bytes_to_base64 audio_bytes) = true /\
    String.length (bytes_to_base64 audio_bytes) =
    (4 * ((List.length audio_bytes + 2) / 3))%nat.
Proof.
  intros b. split; [apply all_ascii_b2a_base64|].
  unfold bytes_to_base64, b64encode.
  induction b as [|x|x y|x y z rest IH] using list_ind3; try reflexivity.
  cbn [b2a_base64 String.length List.length]. cbv zeta.
  cbn [String.length]. rewrite IH.
  replace (S (S (S (List.length rest))) + 2)%nat
    with (1 * 3 + (List.length rest + 2))%nat by lia.
  rewrite Nat.div_add_l by lia. lia.
Qed.

Lemma all_ascii_app (s1 s2 : string) :
  all_ascii (s1 ++ s2) = all_ascii s1 && all_ascii s2.
Proof.
  induction s1 as [|c s1 IH]; [reflexivity|]. cbn. now rewrite IH, andb_assoc.
Qed.

Lemma loop_skips (c : Ascii.ascii) (s1 s2 : string) :
  a2b c = None ->
  Ascii.eqb c BASE64_PAD = false ->
  forall quad_pos leftchar pads,
    a2b_base64_loop (s1 ++ String c s2) quad_pos leftchar pads =
    a2b_base64_loop (s1 ++ s2) quad_pos leftchar pads.
Proof.
  intros Ha Hp. induction s1 as [|d s1 IH]; intros q l p.
  - cbn [append a2b_base64_loop]. now rewrite Hp, Ha.
  - cbn [append a2b_base64_loop].
    destruct (Ascii.eqb d BASE64_PAD).
    + destruct (2 <=? q)%N; [destruct (4 <=? q + (p + 1))%N|]; auto.
    + destruct (a2b d) as [v|]; [|auto].
      destruct (q =? 0)%N; [auto|].
      destruct (q =? 1)%N; [now rewrite IH|].
      destruct (q =? 2)%N; now rewrite IH.
Qed.

(** [base64_to_bytes] does not validate: an ASCII character that is
    neither in the alphabet nor the pad (a space, a line break) is skipped
    wherever it stands, so the text with it decodes as the text without. *)
Theorem base64_to_bytes_skips_foreign_characters :
  forall (c : Ascii.ascii) (s1 s2 : string),
    is_ascii c = true ->
    a2b c = None ->
    c <> BASE64_PAD ->
    base64_to_bytes (s1 ++ String c s2) = base64_to_bytes (s1 ++ s2).
Proof.
  intros c s1 s2 Hc Ha Hp.
  apply Ascii.eqb_neq in Hp.
  unfold base64_to_bytes, b64decode.
  rewrite !all_ascii_app. cbn [all_ascii]. rewrite Hc. cbn [andb].
  now rewrite (loop_skips c s1 s2 Ha Hp).
Qed.

Lemma base64_to_bytes_skips_foreign_characters_witness :
  base64_to_bytes ("AEAA" ++ String " "%char "QA==") =
  base64_to_bytes ("AEAA" ++ "QA==").
Proof.
  apply base64_to_bytes_skips_foreign_characters.
  - reflexivity.
  - reflexivity.
  - discriminate.
Defined.

End Base64Facts.

(** ** Properties of resample_audio *)

Module ResampleFacts.
Import AudioProcessor.

(** Resampling audio that already has the target rate and one channel
    converts nothing: [set_frame_rate] and [set_channels] are not called,
    and the call behaves as [convert_to_wav(audio_bytes, "wav")]. *)
Theorem resample_noop_is_convert :
  forall (pydub : Pydub)
         (set_frame_rate set_channels : AudioSegment -> Z -> result AudioSegment)
         (audio_bytes : bytes) (target_sample_rate : Z) (a : AudioSegment),
    from_file pydub audio_bytes (Some "wav") = Ok a ->
    frame_rate a = target_sample_rate ->
    (channels a <= 1)%Z ->
    resample_audio pydub set_frame_rate set_channels audio_bytes
      target_sample_rate tt
    = convert_to_wav pydub audio_bytes "wav" tt.
Proof.
  intros pydub sfr sch b target a Ha Hr Hc.
  rewrite ProcessorFacts.convert_to_wav_run, Ha.
  unfold resample_audio, Method.try_except, Method.bind,
    Method.call_from_file, Method.call_export, Method.ret, raise, lift.
  rewrite Ha, Hr, Z.eqb_refl. cbn [negb].
  replace (1 <? channels a)%Z with false
    by (symmetry; apply Z.ltb_ge; exact Hc).
  destruct (export pydub a "wav"); reflexivity.
Qed.

Lemma resample_noop_is_convert_witness :
  resample_audio pydub_lenient
    (fun _ _ => Raised (OtherException "not called"))
    (fun _ _ => Raised (OtherException "not called"))
    loud 16000 tt
  = convert_to_wav pydub_lenient loud "wav" tt.
Proof.
  apply (resample_noop_is_convert pydub_lenient _ _ loud 16000
           (mkAudioSegment loud 16000 1)).
  - reflexivity.
  - reflexivity.
  - vm_compute. discriminate.
Defined.

End ResampleFacts.
